(** * Air Lift: the Pilot process (semSharedMemPilot.c)

    A shallow embedding of the Pilot's life cycle.  The Pilot is one
    sequential process; everything it does to the outside (semaphore
    operations, stores to and loads from the shared region, logging calls,
    sleeping, exiting) is recorded, in program order, in a trace of events.
    Everything the outside does to the Pilot (return values of the semaphore
    primitives, the value of [random()], what the other processes write into
    the shared region while the Pilot is inside a system call) is drawn from
    an environment [Env], over which every theorem quantifies. *)

From Stdlib Require Import ZArith QArith Qround List String Bool Lia.
Import ListNotations.
Local Open Scope string_scope.
Local Open Scope list_scope.
Local Open Scope Z_scope.

(** ** Constants of the C library *)

Definition EXIT_SUCCESS : Z := 0.
Definition EXIT_FAILURE : Z := 1.

(** glibc: [random()] returns a [long] between 0 and [RAND_MAX]. *)
Definition RAND_MAX : Z := 2147483647.

(** The cast [(unsigned int) d] of an integral value, written out as the
    reduction modulo 2^32. *)
Definition to_unsigned_int (v : Z) : Z := v mod 2 ^ 32.

(** The range of a C [int]. *)
Definition INT_MAX : Z := 2147483647.
Definition INT_MIN : Z := -2147483648.

(** An arithmetic result stored in an [int]: two's complement, modulo 2^32
    (the increment of [INT_MAX] gives [INT_MIN]). *)
Definition wrap_int (v : Z) : Z := (v + 2 ^ 31) mod 2 ^ 32 - 2 ^ 31.

Arguments wrap_int : simpl never.

(** ** probConst.h, probDataStruct.h, sharedDataSync.h *)

(** Modelled from the spec: the pilot state constants of probConst.h
    (absent from the sources); the code uses the five names below, the spec
    (section 3) gives them as one enumeration. *)
Inductive PilotStat : Type :=
| FLYING_BACK
| READY_FOR_BOARDING
| WAITING_FOR_BOARDING
| FLYING
| DROPING_PASSENGERS.

(** Modelled from the spec: the semaphore identifiers stored in
    [SHARED_DATA] (sharedDataSync.h, absent from the sources); the code
    uses [sh->mutex], [sh->readyForBoarding], [sh->readyToFlight],
    [sh->passengersWaitInFlight] and [sh->planeEmpty]. *)
Inductive Sem : Type :=
| mutex
| readyForBoarding
| readyToFlight
| passengersWaitInFlight
| planeEmpty.

(** Modelled from the spec: [STAT] and [FULL_STAT] of probDataStruct.h
    (absent from the sources).  The code touches [st.pilotStat], [nFlight]
    and [finished]; the other fields are those of the spec's FlightState.
    [nFlight] is an [int]. *)
Record STAT : Type := mkSTAT {
  pilotStat : PilotStat;
  hostessStat : Z;
  passengerStat : list Z
}.

Record FULL_STAT : Type := mkFULL_STAT {
  st : STAT;
  nFlight : Z;
  boardedCount : Z;
  remainingCount : Z;
  finished : bool
}.

Definition set_pilotStat (p : PilotStat) (s : FULL_STAT) : FULL_STAT :=
  mkFULL_STAT (mkSTAT p (hostessStat (st s)) (passengerStat (st s)))
              (nFlight s) (boardedCount s) (remainingCount s) (finished s).

Definition set_nFlight (n : Z) (s : FULL_STAT) : FULL_STAT :=
  mkFULL_STAT (st s) n (boardedCount s) (remainingCount s) (finished s).

(** ** Events *)

Inductive Event : Type :=
| EvSemDown (s : Sem) (r : option Z)
    (** [semDown(semgid, s)]; [Some r] is the value returned, [None] a call
        that never returns (the semaphore is never raised) *)
| EvSemUp (s : Sem) (r : Z)                  (** [semUp(semgid, s)] returned [r] *)
| EvStore_pilotStat (p : PilotStat)          (** [sh->fSt.st.pilotStat = p] *)
| EvStore_nFlight (n : Z)                    (** [sh->fSt.nFlight] becomes [n] *)
| EvLoad_finished (b : bool)                 (** [sh->fSt.finished] read as [b] *)
| EvSaveState (snap : FULL_STAT)             (** [saveState(nFic, &sh->fSt)] *)
| EvSaveStartBoarding (snap : FULL_STAT)
| EvSaveFlightArrived (snap : FULL_STAT)
| EvSaveFlightReturning (snap : FULL_STAT)
| EvRandom (r : Z)                           (** [random()] returned [r] *)
| EvUsleep (us : Z)                          (** [usleep(us)] *)
| EvShmemDettach (r : Z)                     (** [shmemDettach(sh)] returned [r] *)
| EvPerror (msg : string)
| EvExit (status : Z).                       (** [exit(status)] *)

(** ** The environment *)

(** What the code takes from outside this file.  The replies are indexed by
    the Pilot's clock, which counts its calls into the environment. *)
Record Env : Type := mkEnv {
  MAXFLIGHT : Z;
    (** the macro of probConst.h (absent), an integer-valued double *)
  fl : Q -> Q;
    (** rounding of a real result to a double *)
  semDown_ret : nat -> option Z;
  semUp_ret : nat -> Z;
  random_ret : nat -> Z;
  shmemDettach_ret : nat -> Z;
  others : nat -> FULL_STAT -> FULL_STAT
    (** what the other processes do to the shared record while the Pilot is
        inside the system call issued at that clock value *)
}.

(** ** The monad: state, trace and early exit *)

Record World : Type := mkWorld {
  fSt : FULL_STAT;      (** [sh->fSt] *)
  now : nat             (** the clock *)
}.

Inductive Outcome (A : Type) : Type :=
| Returned (a : A) (w : World)     (** the call returned [a] *)
| Exited (status : Z) (w : World)  (** the process called [exit] *)
| Blocked (w : World)              (** suspended for ever in a [semDown] *)
| Unfinished (w : World).          (** the loop budget ran out *)

Arguments Returned {A} a w.
Arguments Exited {A} status w.
Arguments Blocked {A} w.
Arguments Unfinished {A} w.

Definition M (A : Type) : Type := World -> list Event * Outcome A.

Definition ret {A : Type} (a : A) : M A := fun w => ([], Returned a w).

Definition bind {A B : Type} (m : M A) (k : A -> M B) : M B :=
  fun w =>
    match m w with
    | (t1, Returned a w1) => let (t2, o) := k a w1 in (t1 ++ t2, o)
    | (t1, Exited c w1) => (t1, Exited c w1)
    | (t1, Blocked w1) => (t1, Blocked w1)
    | (t1, Unfinished w1) => (t1, Unfinished w1)
    end.

Notation "x <- m ;; k" := (bind m (fun x => k))
  (at level 61, m at next level, right associativity).
Notation "m ;; k" := (bind m (fun _ => k))
  (at level 61, right associativity).

(** [if (c) { m }] *)
Definition when (c : bool) (m : M unit) : M unit :=
  if c then m else ret tt.

Definition events {A : Type} (r : list Event * Outcome A) : list Event := fst r.
Definition outcome {A : Type} (r : list Event * Outcome A) : Outcome A := snd r.

Definition world_of {A : Type} (o : Outcome A) : World :=
  match o with
  | Returned _ w => w
  | Exited _ w => w
  | Blocked w => w
  | Unfinished w => w
  end.

Definition final {A : Type} (r : list Event * Outcome A) : FULL_STAT :=
  fSt (world_of (snd r)).

Definition returned {A : Type} (o : Outcome A) : bool :=
  match o with Returned _ _ => true | _ => false end.

Definition emit (e : Event) : M unit := fun w => ([e], Returned tt w).

Definition exit {A : Type} (status : Z) : M A :=
  fun w => ([EvExit status], Exited status w).

Definition perror (msg : string) : M unit := emit (EvPerror msg).

Definition out_of_fuel {A : Type} : M A := fun w => ([], Unfinished w).

Section Pilot.

Variable env : Env.

(** ** semaphore.h, logging.h and the C library *)

(** During a system call the other processes run. *)
Definition syscall (w : World) : World :=
  mkWorld (others env (now w) (fSt w)) (S (now w)).

(** [semDown(semgid, s)].  semaphore.c is not among the sources: the value
    the call returns is the environment's; the call may also never return,
    when nobody raises the semaphore. *)
Definition semDown (s : Sem) : M Z :=
  fun w =>
    match semDown_ret env (now w) with
    | Some r => ([EvSemDown s (Some r)], Returned r (syscall w))
    | None => ([EvSemDown s None], Blocked (syscall w))
    end.

(** [semUp(semgid, s)]: never suspends; the value it returns is the
    environment's. *)
Definition semUp (s : Sem) : M Z :=
  fun w =>
    let r := semUp_ret env (now w) in
    ([EvSemUp s r], Returned r (syscall w)).

Definition random : M Z :=
  fun w =>
    let r := random_ret env (now w) in
    ([EvRandom r], Returned r (mkWorld (fSt w) (S (now w)))).

Definition usleep (us : Z) : M unit :=
  fun w => ([EvUsleep us], Returned tt (syscall w)).

Definition shmemDettach : M Z :=
  fun w =>
    let r := shmemDettach_ret env (now w) in
    ([EvShmemDettach r], Returned r (mkWorld (fSt w) (S (now w)))).

Definition saveState : M unit :=
  fun w => emit (EvSaveState (fSt w)) w.
Definition saveStartBoarding : M unit :=
  fun w => emit (EvSaveStartBoarding (fSt w)) w.
Definition saveFlightArrived : M unit :=
  fun w => emit (EvSaveFlightArrived (fSt w)) w.
Definition saveFlightReturning : M unit :=
  fun w => emit (EvSaveFlightReturning (fSt w)) w.

(** [sh->fSt.st.pilotStat = p] *)
Definition store_pilotStat (p : PilotStat) : M unit :=
  fun w => ([EvStore_pilotStat p],
            Returned tt (mkWorld (set_pilotStat p (fSt w)) (now w))).

(** [sh->fSt.nFlight++], on an [int]. *)
Definition incr_nFlight : M unit :=
  fun w =>
    let n := wrap_int (nFlight (fSt w) + 1) in
    ([EvStore_nFlight n], Returned tt (mkWorld (set_nFlight n (fSt w)) (now w))).

(** [floor((MAXFLIGHT * random()) / RAND_MAX + 100.0)] cast to
    [unsigned int]; every double operation rounds its exact result. *)
Definition travel_time (x : Z) : Z :=
  let prod := fl env (inject_Z (MAXFLIGHT env) * inject_Z x)%Q in
  let quot := fl env (prod / inject_Z RAND_MAX)%Q in
  let sum := fl env (quot + inject_Z 100)%Q in
  to_unsigned_int (Qfloor sum).

(** ** The operations of the pilot *)

Definition isFinished : M bool :=
  fun w =>
    let b := finished (fSt w) in
    ([EvLoad_finished b], Returned b w).

Definition flight (go : bool) : M unit :=
  r <- semDown mutex;;
  when (r =? -1)
    (perror "error on the up operation for semaphore access (PT)";;
     exit EXIT_FAILURE);;
  store_pilotStat (if go then FLYING else FLYING_BACK);;
  saveState;;
  r <- semUp mutex;;
  when (r =? -1)
    (perror "error on the up operation for semaphore access (PT)";;
     exit EXIT_FAILURE);;
  x <- random;;
  usleep (travel_time x).

Definition signalReadyForBoarding : M unit :=
  r <- semDown mutex;;
  when (r =? -1)
    (perror "error on the up operation for semaphore access (PT)";;
     exit EXIT_FAILURE);;
  store_pilotStat READY_FOR_BOARDING;;
  incr_nFlight;;
  saveState;;
  saveStartBoarding;;
  r <- semUp mutex;;
  when (r =? -1)
    (perror "error on the up operation for semaphore access (PT)";;
     exit EXIT_FAILURE);;
  r <- semUp readyForBoarding;;
  when (r =? -1)
    (perror "error on the up operation for semaphore (playersWaitReferee) access (RF)";;
     exit EXIT_FAILURE).

Definition waitUntilReadyToFlight : M unit :=
  r <- semDown mutex;;
  when (r =? -1)
    (perror "error on the down operation for semaphore access (PT)";;
     exit EXIT_FAILURE);;
  store_pilotStat WAITING_FOR_BOARDING;;
  saveState;;
  r <- semUp mutex;;
  when (r =? -1)
    (perror "error on the up operation for semaphore access (PT)";;
     exit EXIT_FAILURE);;
  r <- semDown readyToFlight;;
  when (r =? -1)
    (perror "error on the down operation for semaphore (playersWaitReferee) access (RF)";;
     exit EXIT_FAILURE).

Definition dropPassengersAtTarget : M unit :=
  r <- semDown mutex;;
  when (r =? -1)
    (perror "error on the down operation for semaphore access (PT)";;
     exit EXIT_FAILURE);;
  store_pilotStat DROPING_PASSENGERS;;
  saveFlightArrived;;
  saveState;;
  r <- semUp mutex;;
  when (r =? -1)
    (perror "error on the up operation for semaphore access (PT)";;
     exit EXIT_FAILURE);;
  r <- semUp passengersWaitInFlight;;
  when (r =? -1)
    (perror "error on the up operation for semaphore access (PT)";;
     exit EXIT_FAILURE);;
  r <- semDown planeEmpty;;
  when (r =? -1)
    (perror "error on the down operation for semaphore access (PT)";;
     exit EXIT_FAILURE);;
  r <- semDown mutex;;
  when (r =? -1)
    (perror "error on the down operation for semaphore access (PT)";;
     exit EXIT_FAILURE);;
  saveFlightReturning;;
  r <- semUp mutex;;
  when (r =? -1)
    (perror "error on the up operation for semaphore access (PT)";;
     exit EXIT_FAILURE).

(** ** main: the life cycle of the pilot (lines 104-124) *)

(** The body of the [while] loop. *)
Definition cycle : M unit :=
  flight false;;
  signalReadyForBoarding;;
  waitUntilReadyToFlight;;
  flight true;;
  dropPassengersAtTarget.

(** [while (!isFinished()) { ... }], at most [fuel] tests of the condition. *)
Fixpoint life_cycle (fuel : nat) : M unit :=
  match fuel with
  | O => out_of_fuel
  | S fuel' =>
      fin <- isFinished;;
      if negb fin then cycle;; life_cycle fuel' else ret tt
  end.

(** [main] from the loop on; the value returned is the exit status.  The
    command line and the connection to the semaphore set and the shared
    region (lines 62-102) come before and are not part of the protocol. *)
Definition main (fuel : nat) : M Z :=
  life_cycle fuel;;
  r <- shmemDettach;;
  if r =? -1 then
    perror "error on unmapping the shared region off the process address space";;
    ret EXIT_FAILURE
  else ret EXIT_SUCCESS.

End Pilot.

Arguments travel_time : simpl never.

(** ** Observing a trace *)

(** How a call ended, forgetting the value and the world. *)
Inductive Status : Type :=
| SReturned
| SExited (status : Z)
| SBlocked
| SUnfinished.

Definition status {A : Type} (o : Outcome A) : Status :=
  match o with
  | Returned _ _ => SReturned
  | Exited c _ => SExited c
  | Blocked _ => SBlocked
  | Unfinished _ => SUnfinished
  end.

(** A monitor reads a trace event by event: [ok s e] tells whether event [e]
    is allowed in monitor state [s], [step s e] is the state after it. *)
Section Monitor.

Context {S : Type}.
Variable step : S -> Event -> S.
Variable ok : S -> Event -> bool.

Fixpoint after (s : S) (t : list Event) : S :=
  match t with
  | [] => s
  | e :: t' => after (step s e) t'
  end.

Fixpoint allowed (s : S) (t : list Event) : bool :=
  match t with
  | [] => true
  | e :: t' => ok s e && allowed (step s e) t'
  end.

(** A computation respects the monitor from the states of [P], and leaves
    it in a state of [Q], which may depend on how the computation ended. *)
Definition respects {A : Type} (P : S -> Prop) (m : M A)
    (Q : Status -> S -> Prop) : Prop :=
  forall w s, P s ->
    allowed s (events (m w)) = true /\
    Q (status (outcome (m w))) (after s (events (m w))).

End Monitor.

(** *** The phases written to [pilotStat] *)

Fixpoint phase_writes (t : list Event) : list PilotStat :=
  match t with
  | [] => []
  | EvStore_pilotStat p :: t' => p :: phase_writes t'
  | _ :: t' => phase_writes t'
  end.

Definition PilotStat_eqb (p q : PilotStat) : bool :=
  match p, q with
  | FLYING_BACK, FLYING_BACK
  | READY_FOR_BOARDING, READY_FOR_BOARDING
  | WAITING_FOR_BOARDING, WAITING_FOR_BOARDING
  | FLYING, FLYING
  | DROPING_PASSENGERS, DROPING_PASSENGERS => true
  | _, _ => false
  end.





(** The phases of one cycle, in the order of the loop body. *)
Definition cycle_phases : list PilotStat :=
  [FLYING_BACK; READY_FOR_BOARDING; WAITING_FOR_BOARDING; FLYING;
   DROPING_PASSENGERS].

(** *** The phases shown to the logger *)





(** *** The top of a cycle *)

(** Where the Pilot is with respect to the test of the loop. *)
Inductive Top : Type :=
| Tested       (** [finished] has just been read as false *)
| Entering     (** and the mutex has then been acquired *)
| Elsewhere.

Definition top_step (s : Top) (e : Event) : Top :=
  match e with
  | EvLoad_finished false => Tested
  | EvSemDown mutex (Some _) =>
      match s with Tested => Entering | _ => Elsewhere end
  | _ => Elsewhere
  end.

(** The phase of the outbound flight is stored only on entering. *)
Definition top_ok (s : Top) (e : Event) : bool :=
  match e with
  | EvStore_pilotStat FLYING_BACK =>
      match s with Entering => true | _ => false end
  | _ => true
  end.

(** *** Holding the mutex *)

Definition is_mutex (s : Sem) : bool :=
  match s with mutex => true | _ => false end.

(** A [semDown] on the mutex that returned without error acquires it, a
    [semUp] on the mutex that returned without error releases it. *)
Definition holding (held : bool) (e : Event) : bool :=
  match e with
  | EvSemDown mutex (Some r) => if r =? -1 then held else true
  | EvSemUp mutex r => if r =? -1 then held else false
  | _ => held
  end.

(** Operations on the rendezvous semaphores and the travel delay. *)
Definition suspension (e : Event) : bool :=
  match e with
  | EvSemDown s _ => negb (is_mutex s)
  | EvSemUp s _ => negb (is_mutex s)
  | EvUsleep _ => true
  | _ => false
  end.

Definition suspension_ok (held : bool) (e : Event) : bool :=
  if suspension e then negb held else true.

(** No rendezvous operation and no sleep happens while the mutex is held;
    [held] tells whether it is held when the trace starts. *)
Definition mutex_free (held : bool) (t : list Event) : bool :=
  allowed holding suspension_ok held t.

Definition is_load (e : Event) : bool :=
  match e with EvLoad_finished _ => true | _ => false end.

Definition load_inside (held : bool) (e : Event) : bool :=
  if is_load e then held else true.

Definition load_outside (held : bool) (e : Event) : bool :=
  if is_load e then negb held else true.

(** Every read of [finished] happens while the mutex is held. *)
Definition reads_under_mutex (held : bool) (t : list Event) : bool :=
  allowed holding load_inside held t.

(** Every read of [finished] happens while the mutex is not held. *)
Definition reads_outside_mutex (held : bool) (t : list Event) : bool :=
  allowed holding load_outside held t.

(** Operations on semaphores. *)
Definition is_sem_op (e : Event) : bool :=
  match e with
  | EvSemDown _ _ | EvSemUp _ _ => true
  | _ => false
  end.

(** *** Errors of the semaphore primitives *)

Definition sem_error (e : Event) : bool :=
  match e with
  | EvSemDown _ (Some r) => r =? -1
  | EvSemUp _ r => r =? -1
  | _ => false
  end.

Inductive AbortState : Type :=
| Running      (** no primitive has failed *)
| Failed       (** a primitive has just failed *)
| Reported     (** the failure has been written to stderr *)
| Dead.        (** the process has exited *)

Definition abort_step (s : AbortState) (e : Event) : AbortState :=
  match s with
  | Running => if sem_error e then Failed else Running
  | Failed => Reported
  | Reported => Dead
  | Dead => Dead
  end.

Definition abort_ok (s : AbortState) (e : Event) : bool :=
  match s, e with
  | Running, EvExit _ => false
  | Running, _ => true
  | Failed, EvPerror _ => true
  | Reported, EvExit c => c =? EXIT_FAILURE
  | _, _ => false
  end.

(** What follows a failed primitive: the message and [exit(EXIT_FAILURE)]. *)
Definition abort_tail (t : list Event) : bool :=
  match t with
  | [EvPerror _; EvExit c] => c =? EXIT_FAILURE
  | _ => false
  end.

(** *** The end of the life cycle *)

(** What follows the last test of the loop: the region is unmapped, and a
    failure to unmap is reported. *)
Definition epilogue (r : Z) : list Event :=
  EvShmemDettach r ::
  (if r =? -1
   then [EvPerror "error on unmapping the shared region off the process address space"]
   else []).

(** [finished] read as true. *)
Definition finish_seen (e : Event) : bool :=
  match e with EvLoad_finished true => true | _ => false end.

Definition cycling (e : Event) : bool := negb (finish_seen e).

Definition idle (s : unit) (e : Event) : unit := s.
Definition cycling_ok (s : unit) (e : Event) : bool := cycling e.

(** *** Stores and raises *)


Definition Sem_eqb (a b : Sem) : bool :=
  match a, b with
  | mutex, mutex
  | readyForBoarding, readyForBoarding
  | readyToFlight, readyToFlight
  | passengersWaitInFlight, passengersWaitInFlight
  | planeEmpty, planeEmpty => true
  | _, _ => false
  end.

(** [semUp] on the semaphore [s], whatever it returned. *)
Definition raises (s : Sem) (e : Event) : bool :=
  match e with EvSemUp s' _ => Sem_eqb s s' | _ => false end.

Definition count_raises (s : Sem) (t : list Event) : nat :=
  List.length (filter (raises s) t).



(** *** Conditions on how a call ended *)

Definition on_return {S : Type} (P : S -> Prop) (st : Status) (s : S) : Prop :=
  match st with SReturned => P s | _ => True end.

Definition abort_post (st : Status) (s : AbortState) : Prop :=
  match st with
  | SExited c => s = Dead /\ c = EXIT_FAILURE
  | _ => s = Running
  end.

(** An environment in which no semaphore primitive fails and every
    semaphore the Pilot waits for is raised. *)
Definition cooperative (env : Env) : Prop :=
  (forall k, exists r, semDown_ret env k = Some r /\ r <> -1) /\
  (forall k, semUp_ret env k <> -1).

(** ** Sample runs *)

Definition at_rest : FULL_STAT :=
  mkFULL_STAT (mkSTAT DROPING_PASSENGERS 0 [0; 0; 0]) 0 0 0 false.

Definition air_lift_over : FULL_STAT :=
  mkFULL_STAT (mkSTAT DROPING_PASSENGERS 0 [0; 0; 0]) 2 0 0 true.

Definition in_flight : FULL_STAT :=
  mkFULL_STAT (mkSTAT FLYING 2 [3; 3; 1]) 1 2 2 false.

(** Every primitive succeeds at once and nobody else writes. *)
Definition calm : Env :=
  mkEnv 100 (fun q => q) (fun _ => Some 0) (fun _ => 0)
        (fun _ => 1073741824) (fun _ => 0) (fun _ s => s).

(** The first release of the mutex fails. *)
Definition broken_release : Env :=
  mkEnv 100 (fun q => q) (fun _ => Some 0)
        (fun k => if Nat.eqb k 1 then -1 else 0)
        (fun _ => 1073741824) (fun _ => 0) (fun _ s => s).

(** Nobody raises the semaphore the Pilot waits for: the calls of [semDown]
    made at clock 2 and at clock 3 never return. *)
Definition nobody_answers : Env :=
  mkEnv 100 (fun q => q)
        (fun k => if Nat.eqb k 2 then None else if Nat.eqb k 3 then None else Some 0)
        (fun _ => 0) (fun _ => 1073741824) (fun _ => 0) (fun _ s => s).
(** The external controller ends the air lift while the Pilot waits for
    the boarding to complete (the [semDown] on [readyToFlight] of the first
    cycle is the call made at clock 9). *)
Definition stops_during_boarding : Env :=
  mkEnv 100 (fun q => q) (fun _ => Some 0) (fun _ => 0)
        (fun _ => 1073741824) (fun _ => 0)
        (fun k s =>
           if Nat.eqb k 9
           then mkFULL_STAT (st s) (nFlight s) (boardedCount s)
                            (remainingCount s) true
           else s).

(** The hostess never raises [readyToFlight] (the call made at clock 9). *)
Definition nobody_answers_boarding : Env :=
  mkEnv 100 (fun q => q)
        (fun k => if Nat.eqb k 9 then None else Some 0)
        (fun _ => 0) (fun _ => 1073741824) (fun _ => 0) (fun _ s => s).

(** ** More observations of a trace *)

(** *** Acquiring and releasing the mutex *)

(** The mutex is asked for only when it is not held, and released only when
    it is held. *)
Definition balanced_ok (held : bool) (e : Event) : bool :=
  match e with
  | EvSemDown mutex _ => negb held
  | EvSemUp mutex _ => held
  | _ => true
  end.

Definition mutex_balanced (held : bool) (t : list Event) : bool :=
  allowed holding balanced_ok held t.

(** Stores to the shared record and calls of the logging functions, which
    read it. *)
Definition guarded (e : Event) : bool :=
  match e with
  | EvStore_pilotStat _ | EvStore_nFlight _
  | EvSaveState _ | EvSaveStartBoarding _
  | EvSaveFlightArrived _ | EvSaveFlightReturning _ => true
  | _ => false
  end.

Definition guarded_ok (held : bool) (e : Event) : bool :=
  if guarded e then held else true.

Definition accesses_under_mutex (held : bool) (t : list Event) : bool :=
  allowed holding guarded_ok held t.

(** *** What the log shows *)

(** What the Pilot has stored since it last released the mutex. *)
Record Written : Type := mkWritten {
  w_phase : option PilotStat;
  w_flight : option Z
}.

Definition written_step (s : Written) (e : Event) : Written :=
  match e with
  | EvStore_pilotStat p => mkWritten (Some p) (w_flight s)
  | EvStore_nFlight n => mkWritten (w_phase s) (Some n)
  | EvSemUp mutex _ => mkWritten None None
  | _ => s
  end.

(** The snapshot shows the phase just stored, and the flight number just
    stored if there is one. *)
Definition shows (s : Written) (snap : FULL_STAT) : bool :=
  match w_phase s with
  | Some p => PilotStat_eqb (pilotStat (st snap)) p
  | None => false
  end &&
  match w_flight s with
  | Some n => nFlight snap =? n
  | None => true
  end.

Definition written_ok (s : Written) (e : Event) : bool :=
  match e with
  | EvSaveState snap | EvSaveFlightArrived snap => shows s snap
  | EvSaveStartBoarding snap =>
      shows s snap &&
      match w_flight s with Some _ => true | None => false end
  | _ => true
  end.

Definition unwritten : Written := mkWritten None None.

Definition log_shows_stores (t : list Event) : bool :=
  allowed written_step written_ok unwritten t.

(** *** The steps of the protocol *)

Inductive ProtoEvent : Type :=
| PStore (p : PilotStat)     (** a store to [pilotStat] *)
| PSleep                     (** the travel delay *)
| PUp (s : Sem)              (** a rendezvous semaphore raised *)
| PDown (s : Sem).           (** a wait on a rendezvous semaphore *)

Definition classify (e : Event) : option ProtoEvent :=
  match e with
  | EvStore_pilotStat p => Some (PStore p)
  | EvUsleep _ => Some PSleep
  | EvSemUp s _ => if is_mutex s then None else Some (PUp s)
  | EvSemDown s _ => if is_mutex s then None else Some (PDown s)
  | _ => None
  end.

Fixpoint proto_events (t : list Event) : list ProtoEvent :=
  match t with
  | [] => []
  | e :: t' =>
      match classify e with
      | Some p => p :: proto_events t'
      | None => proto_events t'
      end
  end.

(** One cycle, as the loop body runs it. *)
Definition protocol : list ProtoEvent :=
  [PStore FLYING_BACK; PSleep;
   PStore READY_FOR_BOARDING; PUp readyForBoarding;
   PStore WAITING_FOR_BOARDING; PDown readyToFlight;
   PStore FLYING; PSleep;
   PStore DROPING_PASSENGERS; PUp passengersWaitInFlight; PDown planeEmpty].

Definition ProtoEvent_eqb (a b : ProtoEvent) : bool :=
  match a, b with
  | PStore p, PStore q => PilotStat_eqb p q
  | PSleep, PSleep => true
  | PUp s, PUp s' => Sem_eqb s s'
  | PDown s, PDown s' => Sem_eqb s s'
  | _, _ => false
  end.

(** The position in the protocol: the cycles completed and the steps taken
    in the current one. *)
Definition proto_step (s : nat * nat) (e : Event) : nat * nat :=
  match classify e with
  | None => s
  | Some _ => if Nat.eqb (snd s) 10 then (S (fst s), O) else (fst s, S (snd s))
  end.

Definition proto_ok (s : nat * nat) (e : Event) : bool :=
  match classify e with
  | None => if is_load e then Nat.eqb (snd s) 0 else true
  | Some p => ProtoEvent_eqb p (nth (snd s) protocol PSleep)
  end.

(** Stores, sleeps and rendezvous operations come in the order of
    [protocol], cycle after cycle, and [finished] is read between cycles
    only. *)
Definition follows_protocol (t : list Event) : bool :=
  allowed proto_step proto_ok (O, O) t.

Definition proto_collect (l : list ProtoEvent) (e : Event) : list ProtoEvent :=
  match classify e with Some p => p :: l | None => l end.

Definition proto_any (l : list ProtoEvent) (e : Event) : bool := true.

(** *** The flight numbers *)

Fixpoint flights (t : list Event) : list Z :=
  match t with
  | [] => []
  | EvStore_nFlight n :: t' => n :: flights t'
  | _ :: t' => flights t'
  end.

(** The numbers of [l] are [n + 1], [n + 2], ... *)
Fixpoint consecutive (n : Z) (l : list Z) : bool :=
  match l with
  | [] => true
  | x :: l' => (x =? n + 1) && consecutive (n + 1) l'
  end.

(** As long as the flight number stays within the [int] range over [c]
    increments, the flight numbers a computation stores follow the one it
    finds, there are at most [c] of them, and the last of them is the one
    it leaves. *)
Definition numbers_flights {A : Type} (c : nat) (m : M A) : Prop :=
  forall w,
    INT_MIN <= nFlight (fSt w) ->
    nFlight (fSt w) + Z.of_nat c <= INT_MAX ->
    consecutive (nFlight (fSt w)) (flights (events (m w))) = true /\
    nFlight (final (m w)) =
      nFlight (fSt w) + Z.of_nat (List.length (flights (events (m w)))) /\
    (List.length (flights (events (m w))) <= c)%nat.

(** ** main: the start of the process (lines 60-102) *)

(** The conversion of an [unsigned int] to [int] (gcc: modulo 2^32). *)
Definition to_int (u : Z) : Z := if u <? 2 ^ 31 then u else u - 2 ^ 32.

Definition newline : string := String (Ascii.ascii_of_nat 10) EmptyString.

Inductive BootEvent : Type :=
| EvFreopen (path mode : string)    (** [freopen(path, mode, stderr)] *)
| EvFprintf (msg : string)          (** [fprintf(stderr, msg)] *)
| EvStrcpy_nFic (name : string)     (** [strcpy(nFic, name)] *)
| EvStrtol (s : string) (base : Z)
| EvSemConnect (key r : Z)          (** [semConnect(key)] returned [r] *)
| EvShmemConnect (key r : Z)
| EvShmemAttach (shmid r : Z)
| EvBootPerror (msg : string)
| EvSrandom (seed : Z).

(** What the start of [main] takes from outside: the command line, the C
    library ([strtol] gives the value and the text left unread, to which
    [tinp] points) and the functions of semaphore.c and sharedMemory.c. *)
Record Boot : Type := mkBoot {
  argv : list string;
  strtol : string -> Z -> Z * string;
  semConnect_ret : Z -> Z;
  shmemConnect_ret : Z -> Z;
  shmemAttach_ret : Z -> Z;
  getpid_ret : Z
}.

Definition argc (b : Boot) : Z := Z.of_nat (List.length (argv b)).

Definition arg (b : Boot) (i : nat) : string := nth i (argv b) "".

Inductive Started : Type :=
| Refused (status : Z)
    (** [main] returned [status] before the life cycle *)
| Overrun
    (** [strcpy] wrote past the 51 bytes of [nFic]: undefined behaviour *)
| Attached (nFic : string) (semgid shmid : Z).
    (** the life cycle can start *)

Definition prologue (b : Boot) : list BootEvent * Started :=
  if negb (argc b =? 4) then
    ([EvFreopen "error_PT" "a";
      EvFprintf ("Number of parameters is incorrect!" ++ newline)],
     Refused EXIT_FAILURE)
  else
    let t1 := [EvFreopen (arg b 3) "w"; EvStrcpy_nFic (arg b 1)] in
    if (50 <? String.length (arg b 1))%nat then (t1, Overrun)
    else
      let (v, tinp) := strtol b (arg b 2) 0 in
      let key := to_int (to_unsigned_int v) in
      let t2 := t1 ++ [EvStrtol (arg b 2) 0] in
      if negb (String.eqb tinp "") then
        (t2 ++ [EvFprintf ("Error on the access key communication!" ++ newline)],
         Refused EXIT_FAILURE)
      else
        let semgid := semConnect_ret b key in
        let t3 := t2 ++ [EvSemConnect key semgid] in
        if semgid =? -1 then
          (t3 ++ [EvBootPerror "error on connecting to the semaphore set"],
           Refused EXIT_FAILURE)
        else
          let shmid := shmemConnect_ret b key in
          let t4 := t3 ++ [EvShmemConnect key shmid] in
          if shmid =? -1 then
            (t4 ++ [EvBootPerror "error on connecting to the shared memory region"],
             Refused EXIT_FAILURE)
          else
            let r := shmemAttach_ret b shmid in
            let t5 := t4 ++ [EvShmemAttach shmid r] in
            if r =? -1 then
              (t5 ++ [EvBootPerror
                        "error on mapping the shared region on the process address space"],
               Refused EXIT_FAILURE)
            else
              (t5 ++ [EvSrandom (to_unsigned_int (getpid_ret b))],
               Attached (arg b 1) semgid shmid).

(** A connection that returned -1. *)
Definition connection_failed (e : BootEvent) : bool :=
  match e with
  | EvSemConnect _ r | EvShmemConnect _ r | EvShmemAttach _ r => r =? -1
  | _ => false
  end.

(** A message written to stderr. *)
Definition is_report (e : BootEvent) : bool :=
  match e with
  | EvFprintf _ | EvBootPerror _ => true
  | _ => false
  end.

Definition touches_resources (e : BootEvent) : bool :=
  match e with
  | EvSemConnect _ _ | EvShmemConnect _ _ | EvShmemAttach _ _
  | EvSrandom _ => true
  | _ => false
  end.

(** A connection that fails is followed by its report and nothing else. *)
Fixpoint stops_at_failure (t : list BootEvent) : bool :=
  match t with
  | [] => true
  | e :: t' =>
      if connection_failed e
      then match t' with [EvBootPerror _] => true | _ => false end
      else stops_at_failure t'
  end.

(** How the process ends. *)
Inductive Ending : Type :=
| Ended (status : Z)      (** [main] returned or [exit] was called *)
| Suspended               (** for ever in a [semDown] *)
| Still_cycling.          (** the loop budget ran out *)

(** The log file name fits the 51 bytes of [nFic], when it is copied. *)
Definition name_fits (b : Boot) : Prop :=
  argc b = 4 -> (String.length (arg b 1) <= 50)%nat.

(** The whole of [main]: the start, then the life cycle on the shared
    record [w] found in the region.  When [strcpy] overruns [nFic] the
    behaviour of the program is undefined: no run is given. *)
Definition pilot_process (b : Boot) (env : Env) (fuel : nat) (w : World)
    : option (list BootEvent * list Event * Ending) :=
  match prologue b with
  | (tb, Refused c) => Some (tb, [], Ended c)
  | (tb, Overrun) => None
  | (tb, Attached _ _ _) =>
      match main env fuel w with
      | (t, Returned v _) => Some (tb, t, Ended v)
      | (t, Exited c _) => Some (tb, t, Ended c)
      | (t, Blocked _) => Some (tb, t, Suspended)
      | (t, Unfinished _) => Some (tb, t, Still_cycling)
      end
  end.

(** ** More sample runs *)

(** From clock 9 on the external controller keeps [finished] set. *)
Definition ends_from_boarding : Env :=
  mkEnv 100 (fun q => q) (fun _ => Some 0) (fun _ => 0)
        (fun _ => 1073741824) (fun _ => 0)
        (fun k s =>
           if Nat.leb 9 k
           then mkFULL_STAT (st s) (nFlight s) (boardedCount s)
                            (remainingCount s) true
           else s).

(** A C library whose [strtol] reads nothing but the text "4660". *)
Definition reads_4660 (s : string) (base : Z) : Z * string :=
  if String.eqb s "4660" then (4660, "") else (0, s).

Definition good_start : Boot :=
  mkBoot ["pilot"; "log"; "4660"; "error_PT"] reads_4660
         (fun _ => 3) (fun _ => 5) (fun _ => 0) 1234.

Definition bad_key_start : Boot :=
  mkBoot ["pilot"; "log"; "46x0"; "error_PT"] reads_4660
         (fun _ => 3) (fun _ => 5) (fun _ => 0) 1234.

Definition no_region_start : Boot :=
  mkBoot ["pilot"; "log"; "4660"; "error_PT"] reads_4660
         (fun _ => 3) (fun _ => -1) (fun _ => 0) 1234.

Definition no_arguments_start : Boot :=
  mkBoot ["pilot"] reads_4660 (fun _ => 3) (fun _ => 5) (fun _ => 0) 1234.

(** * Facts *)

(** ** Monitors and sequencing *)

Section MonitorFacts.

Context {S : Type}.
Variable step : S -> Event -> S.
Variable ok : S -> Event -> bool.

Lemma after_app (s : S) (a b : list Event) :
  after step s (a ++ b) = after step (after step s a) b.
Proof. revert s; induction a as [|e a IH]; intros s; cbn; auto. Qed.

Lemma allowed_app (s : S) (a b : list Event) :
  allowed step ok s (a ++ b) =
  allowed step ok s a && allowed step ok (after step s a) b.
Proof.
  revert s; induction a as [|e a IH]; intros s; cbn; auto.
  rewrite IH, andb_assoc; reflexivity.
Qed.

Lemma respects_ret {A : Type} (P : S -> Prop) (a : A) (Q : Status -> S -> Prop) :
  (forall s, P s -> Q SReturned s) ->
  respects step ok P (ret a) Q.
Proof. intros H w s Hs; cbn; auto. Qed.

Lemma respects_bind {A B : Type} (P : S -> Prop) (Q R : Status -> S -> Prop)
    (m : M A) (k : A -> M B) :
  respects step ok P m Q ->
  (forall a, respects step ok (Q SReturned) (k a) R) ->
  (forall c s, Q (SExited c) s -> R (SExited c) s) ->
  (forall s, Q SBlocked s -> R SBlocked s) ->
  (forall s, Q SUnfinished s -> R SUnfinished s) ->
  respects step ok P (bind m k) R.
Proof.
  intros Hm Hk He Hb Hu w s Hs.
  destruct (Hm w s Hs) as [Ha Hq].
  unfold bind, events, outcome in *.
  destruct (m w) as [t1 [a w1|c w1|w1|w1]]; cbn in *; auto.
  destruct (Hk a w1 _ Hq) as [Ha' Hr].
  destruct (k a w1) as [t2 o]; cbn in *.
  rewrite allowed_app, after_app, Ha, Ha'; auto.
Qed.

Lemma respects_weaken {A : Type} (P P' : S -> Prop) (Q Q' : Status -> S -> Prop)
    (m : M A) :
  respects step ok P m Q ->
  (forall s, P' s -> P s) ->
  (forall st s, Q st s -> Q' st s) ->
  respects step ok P' m Q'.
Proof.
  intros Hm HP HQ w s Hs. destruct (Hm w s (HP s Hs)); auto.
Qed.

End MonitorFacts.

Ltac reply :=
  match goal with
  | |- context [match semDown_ret ?e ?k with _ => _ end] =>
      destruct (semDown_ret e k) as [?r|] eqn:?
  | |- context [if ?r =? -1 then _ else _] =>
      destruct (r =? -1) eqn:?
  end.

Ltac run_op :=
  cbv [flight signalReadyForBoarding waitUntilReadyToFlight
       dropPassengersAtTarget isFinished shmemDettach
       bind when ret exit perror emit semDown semUp random usleep
       saveState saveStartBoarding saveFlightArrived saveFlightReturning
       store_pilotStat incr_nFlight events outcome final];
  repeat (cbn [fst snd app fSt now syscall world_of status returned]; try reply).


Ltac use_replies :=
  repeat match goal with
         | H : (?r =? -1) = _ |- context [?r =? -1] => rewrite H
         end.

Ltac crunch := run_op; repeat (cbn; progress use_replies); cbn; auto.

Section MonitorSeq.

Context {S : Type}.
Variable step : S -> Event -> S.
Variable ok : S -> Event -> bool.

Lemma respects_seq {A B : Type} (P : S -> Prop) (Q : Status -> S -> Prop)
    (m : M A) (k : A -> M B) :
  respects step ok P m Q ->
  (forall a, respects step ok (Q SReturned) (k a) Q) ->
  respects step ok P (bind m k) Q.
Proof. intros Hm Hk; eapply respects_bind; eauto. Qed.

Lemma respects_then {A B : Type} (P Q R : S -> Prop) (m : M A) (k : A -> M B) :
  respects step ok P m (on_return Q) ->
  (forall a, respects step ok Q (k a) (on_return R)) ->
  respects step ok P (bind m k) (on_return R).
Proof. intros Hm Hk; eapply respects_bind; eauto; cbn; auto. Qed.

End MonitorSeq.

Section PilotFacts.

Variable env : Env.

(** *** The mutex is not held across a suspension *)

Lemma flight_mutex go :
  respects holding suspension_ok (eq false) (flight env go) (on_return (eq false)).
Proof. intros w s <-. crunch. Qed.

Lemma signalReadyForBoarding_mutex :
  respects holding suspension_ok (eq false) (signalReadyForBoarding env) (on_return (eq false)).
Proof. intros w s <-. crunch. Qed.

Lemma waitUntilReadyToFlight_mutex :
  respects holding suspension_ok (eq false) (waitUntilReadyToFlight env) (on_return (eq false)).
Proof. intros w s <-. crunch. Qed.

Lemma dropPassengersAtTarget_mutex :
  respects holding suspension_ok (eq false) (dropPassengersAtTarget env) (on_return (eq false)).
Proof. intros w s <-. crunch. Qed.

Lemma cycle_mutex :
  respects holding suspension_ok (eq false) (cycle env) (on_return (eq false)).
Proof.
  unfold cycle.
  repeat (eapply respects_then; [|intros _]);
    auto using flight_mutex, signalReadyForBoarding_mutex,
      waitUntilReadyToFlight_mutex, dropPassengersAtTarget_mutex.
Qed.


Lemma life_cycle_S fuel w :
  life_cycle env (S fuel) w =
  if finished (fSt w) then ([EvLoad_finished true], Returned tt w)
  else let (t, o) := (cycle env;; life_cycle env fuel) w in
       (EvLoad_finished false :: t, o).
Proof.
  cbn [life_cycle]. unfold bind at 1, isFinished.
  destruct (finished (fSt w)); cbn; [reflexivity|].
  destruct ((cycle env;; life_cycle env fuel) w); reflexivity.
Qed.

(** *** Rules for the loop and for [main] *)
Section Loop.
Context {S : Type}.
Variable step : S -> Event -> S.
Variable ok : S -> Event -> bool.
Variable I : S -> Prop.
Variable Q : Status -> S -> Prop.

Hypothesis load_ok : forall s b, I s -> ok s (EvLoad_finished b) = true.
Hypothesis load_false : forall s, I s -> I (step s (EvLoad_finished false)).
Hypothesis load_true : forall s, I s -> Q SReturned (step s (EvLoad_finished true)).
Hypothesis cycle_ok : respects step ok I (cycle env) (fun st s => match st with SReturned => I s | _ => Q st s end).
Hypothesis fuel_out : forall s, I s -> Q SUnfinished s.

Lemma respects_life_cycle fuel : respects step ok I (life_cycle env fuel) Q.
Proof.
  induction fuel as [|fuel IH]; intros w s Hs.
  - cbn; auto.
  - assert (Hb : respects step ok I (cycle env;; life_cycle env fuel) Q).
    { eapply respects_bind; [exact cycle_ok | intros _; exact IH | auto ..]. }
    rewrite life_cycle_S. destruct (finished (fSt w)).
    + cbn. rewrite load_ok by assumption. auto.
    + destruct (Hb w _ (load_false s Hs)) as [Ha Hq].
      unfold events, outcome in *.
      destruct ((cycle env;; life_cycle env fuel) w) as [t o].
      cbn in *. rewrite load_ok, Ha by assumption. auto.
Qed.

Lemma respects_main (R : Status -> S -> Prop) fuel :
  (forall s r, Q SReturned s ->
     ok s (EvShmemDettach r) = true /\
     (if r =? -1
      then forall msg, ok (step s (EvShmemDettach r)) (EvPerror msg) = true /\
             R SReturned (step (step s (EvShmemDettach r)) (EvPerror msg))
      else R SReturned (step s (EvShmemDettach r)))) ->
  (forall c s, Q (SExited c) s -> R (SExited c) s) ->
  (forall s, Q SBlocked s -> R SBlocked s) ->
  (forall s, Q SUnfinished s -> R SUnfinished s) ->
  respects step ok I (main env fuel) R.
Proof.
  intros He H1 H2 H3. unfold main.
  eapply respects_bind; [apply respects_life_cycle | | auto ..].
  intros _ w s Hs. destruct (He s (shmemDettach_ret env (now w)) Hs) as [Hd Hr].
  run_op; cbn; rewrite Hd; cbn.
  - destruct (Hr "error on unmapping the shared region off the process address space") as [-> ?]; auto.
  - auto.
Qed.

End Loop.

Lemma main_mutex fuel :
  respects holding suspension_ok (eq false) (main env fuel) (on_return (eq false)).
Proof.
  eapply respects_main with (Q := on_return (eq false)); cbn; auto.
  - eapply respects_weaken; [apply cycle_mutex | auto |]. intros [] ?; cbn; auto.
  - intros s r <-. split; auto. destruct (r =? -1); auto.
Qed.


(** *** [finished] is read outside the mutex *)

Lemma flight_reads go :
  respects holding load_outside (eq false) (flight env go) (on_return (eq false)).
Proof. intros w s <-. crunch. Qed.

Lemma signalReadyForBoarding_reads :
  respects holding load_outside (eq false) (signalReadyForBoarding env) (on_return (eq false)).
Proof. intros w s <-. crunch. Qed.

Lemma waitUntilReadyToFlight_reads :
  respects holding load_outside (eq false) (waitUntilReadyToFlight env) (on_return (eq false)).
Proof. intros w s <-. crunch. Qed.

Lemma dropPassengersAtTarget_reads :
  respects holding load_outside (eq false) (dropPassengersAtTarget env) (on_return (eq false)).
Proof. intros w s <-. crunch. Qed.

Lemma cycle_reads :
  respects holding load_outside (eq false) (cycle env) (on_return (eq false)).
Proof.
  unfold cycle.
  repeat (eapply respects_then; [|intros _]);
    auto using flight_reads, signalReadyForBoarding_reads,
      waitUntilReadyToFlight_reads, dropPassengersAtTarget_reads.
Qed.

Lemma main_reads fuel :
  respects holding load_outside (eq false) (main env fuel) (on_return (eq false)).
Proof.
  eapply respects_main with (Q := on_return (eq false)); cbn; auto;
    try (intros; subst; reflexivity).
  - eapply respects_weaken; [apply cycle_reads | auto |]. intros [] ?; cbn; auto.
  - intros s r <-. split; auto. destruct (r =? -1); auto.
Qed.

(** *** The order of the phases *)














Lemma status_returned {A : Type} (o : Outcome A) :
  returned o = true -> status o = SReturned.
Proof. destruct o; cbn; congruence. Qed.


(** *** A failed primitive ends the process *)

Lemma flight_abort go :
  respects abort_step abort_ok (eq Running) (flight env go) abort_post.
Proof. intros w s <-. crunch. Qed.

Lemma signalReadyForBoarding_abort :
  respects abort_step abort_ok (eq Running) (signalReadyForBoarding env) abort_post.
Proof. intros w s <-. crunch. Qed.

Lemma waitUntilReadyToFlight_abort :
  respects abort_step abort_ok (eq Running) (waitUntilReadyToFlight env) abort_post.
Proof. intros w s <-. crunch. Qed.

Lemma dropPassengersAtTarget_abort :
  respects abort_step abort_ok (eq Running) (dropPassengersAtTarget env) abort_post.
Proof. intros w s <-. crunch. Qed.

Lemma cycle_abort :
  respects abort_step abort_ok (eq Running) (cycle env) abort_post.
Proof.
  unfold cycle.
  repeat (eapply respects_seq; [|intros _]);
    try (eapply respects_weaken;
         [first [apply flight_abort | apply signalReadyForBoarding_abort
                | apply waitUntilReadyToFlight_abort
                | apply dropPassengersAtTarget_abort]
         | cbn; intros; subst; reflexivity | auto]).
Qed.

Lemma main_abort fuel :
  respects abort_step abort_ok (eq Running) (main env fuel) abort_post.
Proof.
  eapply respects_main with (Q := abort_post); cbn; auto;
    try (intros; subst; reflexivity).
  - eapply respects_weaken; [apply cycle_abort | auto |].
    intros [] ? H; cbn in *; auto.
  - intros s r ->. split; auto. destruct (r =? -1); auto.
Qed.

Lemma abort_after_failure st t :
  allowed abort_step abort_ok Failed t = true ->
  abort_post st (after abort_step Failed t) ->
  abort_tail t = true /\ st = SExited EXIT_FAILURE /\
  forall e, In e t -> sem_error e = false.
Proof.
  destruct t as [|x [|y [|z t]]]; cbn.
  - intros _ H. destruct st; cbn in H; try discriminate. destruct H; discriminate.
  - intros _ H. destruct st; cbn in H; try discriminate. destruct H; discriminate.
  - destruct x; try discriminate. destruct y; try discriminate. cbn.
    rewrite andb_true_r. intros Hc H. split; [assumption|].
    split.
    + destruct st; cbn in H; try discriminate. destruct H as [_ ->]. reflexivity.
    + intros e [<-|[<-|[]]]; reflexivity.
  - destruct x; try discriminate. destruct y; try discriminate. cbn.
    rewrite andb_false_r. discriminate.
Qed.

Lemma abort_split st t :
  allowed abort_step abort_ok Running t = true ->
  abort_post st (after abort_step Running t) ->
  forall t1 e t2, t = t1 ++ e :: t2 -> sem_error e = true ->
  abort_tail t2 = true /\ st = SExited EXIT_FAILURE.
Proof.
  intros Ha Hp t1; revert t Ha Hp.
  induction t1 as [|x t1 IH]; intros t Ha Hp e t2 -> He; cbn in Ha, Hp.
  - rewrite He in Ha, Hp. apply andb_true_iff in Ha as [_ Ha].
    destruct (abort_after_failure st t2 Ha Hp) as (? & ? & _); auto.
  - apply andb_true_iff in Ha as [_ Ha].
    destruct (sem_error x) eqn:Hx.
    + destruct (abort_after_failure st _ Ha Hp) as (_ & _ & Hn).
      rewrite (Hn e) in He; [discriminate|]. apply in_or_app; right; left; auto.
    + eapply IH; eauto.
Qed.


(** *** The end of the loop *)

Lemma allowed_forallb t : allowed idle cycling_ok tt t = forallb cycling t.
Proof. induction t as [|e t IH]; [reflexivity|]. cbn [allowed forallb]. rewrite <- IH. reflexivity. Qed.

Lemma flight_cycling go w : forallb cycling (events (flight env go w)) = true.
Proof. rewrite <- allowed_forallb. crunch. Qed.

Lemma signalReadyForBoarding_cycling w :
  forallb cycling (events (signalReadyForBoarding env w)) = true.
Proof. rewrite <- allowed_forallb. crunch. Qed.

Lemma waitUntilReadyToFlight_cycling w :
  forallb cycling (events (waitUntilReadyToFlight env w)) = true.
Proof. rewrite <- allowed_forallb. crunch. Qed.

Lemma dropPassengersAtTarget_cycling w :
  forallb cycling (events (dropPassengersAtTarget env w)) = true.
Proof. rewrite <- allowed_forallb. crunch. Qed.

Lemma events_bind {A B : Type} (m : M A) (k : A -> M B) w :
  events (bind m k w) =
  events (m w) ++
  match outcome (m w) with
  | Returned a w1 => events (k a w1)
  | _ => []
  end.
Proof.
  unfold bind, events, outcome.
  destruct (m w) as [t1 [a w1|c w1|w1|w1]]; cbn; rewrite ?app_nil_r; auto.
  destruct (k a w1); reflexivity.
Qed.

Lemma outcome_bind {A B : Type} (m : M A) (k : A -> M B) w :
  outcome (bind m k w) =
  match outcome (m w) with
  | Returned a w1 => outcome (k a w1)
  | Exited c w1 => Exited c w1
  | Blocked w1 => Blocked w1
  | Unfinished w1 => Unfinished w1
  end.
Proof.
  unfold bind, events, outcome.
  destruct (m w) as [t1 [a w1|c w1|w1|w1]]; cbn; auto.
  destruct (k a w1); reflexivity.
Qed.

Lemma cycling_bind {A B : Type} (m : M A) (k : A -> M B) w :
  forallb cycling (events (m w)) = true ->
  (forall a w1, forallb cycling (events (k a w1)) = true) ->
  forallb cycling (events (bind m k w)) = true.
Proof.
  intros Hm Hk. rewrite events_bind, forallb_app, Hm.
  destruct (outcome (m w)); cbn; auto.
Qed.

Lemma cycle_cycling w : forallb cycling (events (cycle env w)) = true.
Proof.
  unfold cycle.
  repeat (apply cycling_bind; [|intros _ ?]);
    auto using flight_cycling, signalReadyForBoarding_cycling,
      waitUntilReadyToFlight_cycling, dropPassengersAtTarget_cycling.
Qed.

(** A loop that returns has just read [finished] as true, for the first
    time; a loop that does not return has never read it as true. *)
Lemma life_cycle_end fuel w :
  match outcome (life_cycle env fuel w) with
  | Returned _ w' =>
      exists t, events (life_cycle env fuel w) = t ++ [EvLoad_finished true] /\
                forallb cycling t = true
  | _ => forallb cycling (events (life_cycle env fuel w)) = true
  end.
Proof.
  revert w; induction fuel as [|fuel IH]; intros w; [reflexivity|].
  rewrite life_cycle_S. destruct (finished (fSt w)).
  - exists []; auto.
  - pose proof (events_bind (cycle env) (fun _ => life_cycle env fuel) w) as He.
    pose proof (outcome_bind (cycle env) (fun _ => life_cycle env fuel) w) as Ho.
    pose proof (cycle_cycling w) as Hc.
    unfold events, outcome in *.
    destruct ((cycle env;; life_cycle env fuel) w) as [t o].
    cbn [fst snd] in *. subst t o.
    destruct (cycle env w) as [tc [a w1|c w1|w1|w1]]; cbn [fst snd] in *;
      rewrite ?app_nil_r; auto.
    specialize (IH w1).
    destruct (life_cycle env fuel w1) as [tl [[] w2|c w2|w2|w2]];
      cbn [fst snd] in *;
      try (cbn; rewrite forallb_app, Hc, IH; reflexivity).
    destruct IH as (t & -> & Ht).
    exists (EvLoad_finished false :: tc ++ t). split.
    + cbn. rewrite app_assoc. reflexivity.
    + cbn. rewrite forallb_app, Hc, Ht. reflexivity.
Qed.

Lemma main_eq fuel w :
  main env fuel w =
  match life_cycle env fuel w with
  | (t, Returned _ w') =>
      let r := shmemDettach_ret env (now w') in
      (t ++ epilogue r,
       Returned (if r =? -1 then EXIT_FAILURE else EXIT_SUCCESS)
                (mkWorld (fSt w') (S (now w'))))
  | (t, Exited c w') => (t, Exited c w')
  | (t, Blocked w') => (t, Blocked w')
  | (t, Unfinished w') => (t, Unfinished w')
  end.
Proof.
  unfold main. unfold bind at 1.
  destruct (life_cycle env fuel w) as [t [a w'|c w'|w'|w']]; auto.
  unfold epilogue. crunch.
Qed.

Lemma split_at_finish t1 t2 a b :
  forallb cycling a = true -> forallb cycling b = true ->
  t1 ++ EvLoad_finished true :: t2 = a ++ EvLoad_finished true :: b ->
  t1 = a /\ t2 = b.
Proof.
  revert a; induction t1 as [|x t1 IH]; intros [|y a] Ha Hb H; cbn in *.
  - injection H; auto.
  - injection H as <- _. discriminate.
  - injection H as -> <-. rewrite forallb_app in Hb. cbn in Hb.
    rewrite andb_false_r in Hb. discriminate.
  - injection H as -> H. apply andb_true_iff in Ha as [_ Ha].
    destruct (IH a Ha Hb H) as [-> ->]. auto.
Qed.

Lemma not_cycling t1 t2 :
  forallb cycling (t1 ++ EvLoad_finished true :: t2) = false.
Proof. rewrite forallb_app. cbn. apply andb_false_r. Qed.

Lemma epilogue_cycling r : forallb cycling (epilogue r) = true.
Proof. unfold epilogue. destruct (r =? -1); reflexivity. Qed.


(** *** The trace of a call in which every primitive succeeds *)
Ltac drive :=
  repeat (cbn [fst snd app fSt now syscall];
          match goal with
          | H : semDown_ret ?e ?k = _ |- context [semDown_ret ?e ?k] => rewrite H
          | H : ?r <> -1 |- context [?r =? -1] =>
              rewrite (proj2 (Z.eqb_neq r (-1)) H)
          end).

Ltac unfold_op :=
  cbv [flight signalReadyForBoarding waitUntilReadyToFlight
       dropPassengersAtTarget isFinished shmemDettach
       bind when ret exit perror emit semDown semUp random usleep
       saveState saveStartBoarding saveFlightArrived saveFlightReturning
       store_pilotStat incr_nFlight events outcome final].

Lemma wrap_int_small v : INT_MIN <= v <= INT_MAX -> wrap_int v = v.
Proof.
  unfold wrap_int, INT_MIN, INT_MAX. intros H.
  rewrite Z.mod_small; lia.
Qed.

Lemma signalReadyForBoarding_returns w r1 :
  semDown_ret env (now w) = Some r1 -> r1 <> -1 ->
  semUp_ret env (S (now w)) <> -1 ->
  semUp_ret env (S (S (now w))) <> -1 ->
  let s0 := others env (now w) (fSt w) in
  INT_MIN <= nFlight s0 < INT_MAX ->
  let s1 := set_nFlight (nFlight s0 + 1) (set_pilotStat READY_FOR_BOARDING s0) in
  signalReadyForBoarding env w =
    ([EvSemDown mutex (Some r1);
      EvStore_pilotStat READY_FOR_BOARDING;
      EvStore_nFlight (nFlight s0 + 1);
      EvSaveState s1;
      EvSaveStartBoarding s1;
      EvSemUp mutex (semUp_ret env (S (now w)));
      EvSemUp readyForBoarding (semUp_ret env (S (S (now w))))],
     Returned tt
       (mkWorld (others env (S (S (now w))) (others env (S (now w)) s1))
                (S (S (S (now w)))))).
Proof.
  intros H1 N1 N2 N3 s0 Hb s1. subst s0 s1. unfold_op. drive.
  cbn [nFlight set_pilotStat]. rewrite wrap_int_small by lia. reflexivity.
Qed.

Lemma flight_returns (go : bool) w r1 :
  semDown_ret env (now w) = Some r1 -> r1 <> -1 ->
  semUp_ret env (S (now w)) <> -1 ->
  let s1 := set_pilotStat (if go then FLYING else FLYING_BACK)
              (others env (now w) (fSt w)) in
  let x := random_ret env (S (S (now w))) in
  flight env go w =
    ([EvSemDown mutex (Some r1);
      EvStore_pilotStat (if go then FLYING else FLYING_BACK);
      EvSaveState s1;
      EvSemUp mutex (semUp_ret env (S (now w)));
      EvRandom x;
      EvUsleep (travel_time env x)],
     Returned tt
       (mkWorld (others env (S (S (S (now w)))) (others env (S (now w)) s1))
                (S (S (S (S (now w))))))).
Proof.
  intros H1 N1 N2 s1 x. subst s1 x. unfold_op. drive. reflexivity.
Qed.


(** *** What the operations leave unchanged *)

Section Frame.
Context {A : Type}.
Variable f : FULL_STAT -> A.
Hypothesis others_keep : forall k s, f (others env k s) = f s.
Hypothesis not_pilotStat : forall p s, f (set_pilotStat p s) = f s.

Ltac framed :=
  crunch; repeat first [rewrite others_keep | rewrite not_pilotStat]; auto.

Lemma flight_frame go w : f (final (flight env go w)) = f (fSt w).
Proof. framed. Qed.

Lemma waitUntilReadyToFlight_frame w :
  f (final (waitUntilReadyToFlight env w)) = f (fSt w).
Proof. framed. Qed.

Lemma dropPassengersAtTarget_frame w :
  f (final (dropPassengersAtTarget env w)) = f (fSt w).
Proof. framed. Qed.


End Frame.




Lemma signalReadyForBoarding_nFlight w :
  (forall k s, nFlight (others env k s) = nFlight s) ->
  INT_MIN <= nFlight (fSt w) < INT_MAX ->
  returned (outcome (signalReadyForBoarding env w)) = true ->
  nFlight (final (signalReadyForBoarding env w)) = nFlight (fSt w) + 1.
Proof.
  intros Ho Hb. crunch; try discriminate. intros _. rewrite !Ho.
  apply wrap_int_small. lia.
Qed.

Lemma returned_bind {A B : Type} (m : M A) (k : A -> M B) w :
  returned (outcome (bind m k w)) = true ->
  exists a w1,
    outcome (m w) = Returned a w1 /\
    returned (outcome (k a w1)) = true /\
    final (bind m k w) = final (k a w1).
Proof.
  unfold bind, outcome, final.
  destruct (m w) as [t1 [a w1|c w1|w1|w1]]; cbn; try discriminate.
  intros H. exists a, w1. destruct (k a w1) as [t2 o]; cbn in *; auto.
Qed.

Lemma final_returned {A : Type} (m : M A) w a w1 :
  outcome (m w) = Returned a w1 -> final (m w) = fSt w1.
Proof. unfold outcome, final. intros ->. reflexivity. Qed.

Lemma cycle_nFlight w :
  (forall k s, nFlight (others env k s) = nFlight s) ->
  INT_MIN <= nFlight (fSt w) < INT_MAX ->
  returned (outcome (cycle env w)) = true ->
  nFlight (final (cycle env w)) = nFlight (fSt w) + 1.
Proof.
  intros Ho Hb. unfold cycle. intros H.
  apply returned_bind in H as (a1 & w1 & E1 & H & ->).
  apply returned_bind in H as (a2 & w2 & E2 & H & ->).
  apply returned_bind in H as (a3 & w3 & E3 & H & ->).
  apply returned_bind in H as (a4 & w4 & E4 & H & ->).
  rewrite (dropPassengersAtTarget_frame nFlight Ho) by reflexivity.
  rewrite <- (final_returned _ _ _ _ E4), (flight_frame nFlight Ho) by reflexivity.
  rewrite <- (final_returned _ _ _ _ E3),
    (waitUntilReadyToFlight_frame nFlight Ho) by reflexivity.
  assert (E0 : nFlight (fSt w1) = nFlight (fSt w)).
  { rewrite <- (final_returned _ _ _ _ E1).
    apply (flight_frame nFlight Ho). reflexivity. }
  rewrite <- (final_returned _ _ _ _ E2), signalReadyForBoarding_nFlight; auto.
  - rewrite E0. lia.
  - rewrite E0. exact Hb.
  - rewrite E2; reflexivity.
Qed.

(** *** The travel time *)
Section Rounding.

Hypothesis mono : forall a b : Q, (a <= b)%Q -> (fl env a <= fl env b)%Q.
Hypothesis exact :
  forall n : Z, - 2 ^ 53 <= n <= 2 ^ 53 -> (fl env (inject_Z n) == inject_Z n)%Q.

(** A result that is an integer is not changed by the rounding. *)
Lemma fl_integer (q : Q) (n : Z) :
  - 2 ^ 53 <= n <= 2 ^ 53 -> (q == inject_Z n)%Q -> (fl env q == inject_Z n)%Q.
Proof.
  intros Hn Hq. apply Qle_antisym.
  - rewrite <- (exact n Hn). apply mono. rewrite Hq. apply Qle_refl.
  - rewrite <- (exact n Hn) at 1. apply mono. rewrite Hq. apply Qle_refl.
Qed.

Lemma travel_time_least :
  0 <= MAXFLIGHT env <= 2 ^ 22 -> travel_time env 0 = 100.
Proof.
  intros HM. unfold travel_time.
  assert (Hp : (fl env (inject_Z (MAXFLIGHT env) * inject_Z 0) == inject_Z 0)%Q).
  { apply fl_integer; [lia|]. rewrite <- inject_Z_mult, Z.mul_0_r. reflexivity. }
  assert (Hq : (fl env (fl env (inject_Z (MAXFLIGHT env) * inject_Z 0)
                        / inject_Z RAND_MAX) == inject_Z 0)%Q).
  { apply fl_integer; [lia|]. rewrite Hp. reflexivity. }
  assert (Hs : (fl env (fl env (fl env (inject_Z (MAXFLIGHT env) * inject_Z 0)
                        / inject_Z RAND_MAX) + inject_Z 100) == inject_Z 100)%Q).
  { apply fl_integer; [lia|]. rewrite Hq. reflexivity. }
  rewrite Hs, Qfloor_Z. reflexivity.
Qed.

Lemma travel_time_most :
  0 <= MAXFLIGHT env <= 2 ^ 22 ->
  travel_time env RAND_MAX = MAXFLIGHT env + 100.
Proof.
  intros HM. unfold travel_time.
  set (M := MAXFLIGHT env) in *.
  assert (Hp : (fl env (inject_Z M * inject_Z RAND_MAX)
                == inject_Z (M * RAND_MAX))%Q).
  { apply fl_integer; [unfold RAND_MAX; lia|].
    rewrite inject_Z_mult. reflexivity. }
  assert (Hq : (fl env (fl env (inject_Z M * inject_Z RAND_MAX)
                        / inject_Z RAND_MAX) == inject_Z M)%Q).
  { apply fl_integer; [lia|]. rewrite Hp, inject_Z_mult.
    apply Qdiv_mult_l. discriminate. }
  assert (Hs : (fl env (fl env (fl env (inject_Z M * inject_Z RAND_MAX)
                        / inject_Z RAND_MAX) + inject_Z 100)
                == inject_Z (M + 100))%Q).
  { apply fl_integer; [lia|]. rewrite Hq, inject_Z_plus. reflexivity. }
  rewrite Hs, Qfloor_Z. unfold to_unsigned_int. apply Z.mod_small. lia.
Qed.

Lemma travel_floor_bounds x :
  0 <= MAXFLIGHT env <= 2 ^ 22 ->
  0 <= x <= RAND_MAX ->
  100 <=
    Qfloor (fl env (fl env (fl env (inject_Z (MAXFLIGHT env) * inject_Z x)
                            / inject_Z RAND_MAX) + inject_Z 100))
  <= MAXFLIGHT env + 100.
Proof.
  intros HM Hx. unfold RAND_MAX in *.
  set (M := MAXFLIGHT env) in *.
  set (prod := fl env (inject_Z M * inject_Z x)%Q).
  set (quot := fl env (prod / inject_Z 2147483647)%Q).
  set (sum := fl env (quot + inject_Z 100)%Q).
  assert (Hp : (inject_Z 0 <= prod <= inject_Z (M * 2147483647))%Q).
  { split.
    - rewrite <- (exact 0) by lia. apply mono.
      rewrite <- inject_Z_mult, <- Zle_Qle. nia.
    - rewrite <- (exact (M * 2147483647)) by lia. apply mono.
      rewrite <- inject_Z_mult, <- Zle_Qle. nia. }
  assert (Hq : (inject_Z 0 <= quot <= inject_Z M)%Q).
  { split.
    - rewrite <- (exact 0) by lia. apply mono.
      apply Qle_shift_div_l; [reflexivity|].
      rewrite Qmult_0_l. apply Hp.
    - rewrite <- (exact M) by lia. apply mono.
      apply Qle_shift_div_r; [reflexivity|].
      rewrite <- inject_Z_mult. apply Hp. }
  assert (Hs : (inject_Z 100 <= sum <= inject_Z (M + 100))%Q).
  { split.
    - rewrite <- (exact 100) by lia. apply mono.
      rewrite <- (Qplus_0_l (inject_Z 100)) at 1.
      apply Qplus_le_compat; [apply Hq | apply Qle_refl].
    - rewrite <- (exact (M + 100)) by lia. apply mono.
      rewrite inject_Z_plus.
      apply Qplus_le_compat; [apply Hq | apply Qle_refl]. }
  split.
  - rewrite <- (Qfloor_Z 100). apply Qfloor_resp_le, Hs.
  - rewrite <- (Qfloor_Z (M + 100)). apply Qfloor_resp_le, Hs.
Qed.

Lemma travel_time_floor x :
  0 <= MAXFLIGHT env <= 2 ^ 22 ->
  0 <= x <= RAND_MAX ->
  travel_time env x =
    Qfloor (fl env (fl env (fl env (inject_Z (MAXFLIGHT env) * inject_Z x)
                            / inject_Z RAND_MAX) + inject_Z 100)).
Proof.
  intros HM Hx. pose proof (travel_floor_bounds x HM Hx) as Hf.
  unfold travel_time, to_unsigned_int. apply Z.mod_small. lia.
Qed.

Lemma travel_time_grows x y :
  0 <= MAXFLIGHT env <= 2 ^ 22 ->
  0 <= x <= y -> y <= RAND_MAX ->
  travel_time env x <= travel_time env y.
Proof.
  intros HM Hxy Hy. rewrite !travel_time_floor by lia.
  apply Qfloor_resp_le, mono.
  apply Qplus_le_compat; [|apply Qle_refl]. apply mono.
  apply Qmult_le_compat_r; [|discriminate]. apply mono.
  rewrite <- !inject_Z_mult, <- Zle_Qle. nia.
Qed.

End Rounding.

Lemma travel_time_ideal x :
  (forall q : Q, (fl env q == q)%Q) ->
  0 <= MAXFLIGHT env -> 0 <= x ->
  MAXFLIGHT env * x / RAND_MAX + 100 < 2 ^ 32 ->
  travel_time env x = MAXFLIGHT env * x / RAND_MAX + 100.
Proof.
  intros ideal HM Hx Hlt. unfold travel_time.
  set (M := MAXFLIGHT env) in *.
  assert (E : (fl env (fl env (fl env (inject_Z M * inject_Z x)
                        / inject_Z RAND_MAX) + inject_Z 100)
               == (M * x + 100 * RAND_MAX) # 2147483647)%Q).
  { rewrite ideal, ideal, ideal, <- inject_Z_mult.
    unfold RAND_MAX, Qeq, Qdiv, Qmult, Qplus, Qinv, inject_Z. simpl. lia. }
  rewrite E. unfold Qfloor. change (Z.pos 2147483647) with RAND_MAX.
  rewrite Z.div_add by (unfold RAND_MAX; lia).
  unfold to_unsigned_int. apply Z.mod_small.
  assert (0 <= M * x / RAND_MAX)
    by (apply Z.div_pos; [nia | unfold RAND_MAX; lia]).
  lia.
Qed.

Lemma travel_time_bounds x :
  0 <= MAXFLIGHT env <= 2 ^ 22 ->
  (forall a b : Q, (a <= b)%Q -> (fl env a <= fl env b)%Q) ->
  (forall n : Z, - 2 ^ 53 <= n <= 2 ^ 53 -> (fl env (inject_Z n) == inject_Z n)%Q) ->
  0 <= x <= RAND_MAX ->
  100 <= travel_time env x <= MAXFLIGHT env + 100.
Proof.
  intros HM mono exact Hx.
  rewrite (travel_time_floor mono exact x HM Hx).
  apply travel_floor_bounds; assumption.
Qed.

(** *** Calls that return *)








(** *** Raises *)

Lemma signalReadyForBoarding_raises w :
  (count_raises readyForBoarding (events (signalReadyForBoarding env w)) <= 1)%nat /\
  (returned (outcome (signalReadyForBoarding env w)) = true ->
   count_raises readyForBoarding (events (signalReadyForBoarding env w)) = 1%nat).
Proof. crunch; split; auto; discriminate. Qed.

Lemma dropPassengersAtTarget_raises w :
  (count_raises passengersWaitInFlight
     (events (dropPassengersAtTarget env w)) <= 1)%nat /\
  (returned (outcome (dropPassengersAtTarget env w)) = true ->
   count_raises passengersWaitInFlight
     (events (dropPassengersAtTarget env w)) = 1%nat).
Proof. crunch; split; auto; discriminate. Qed.

(** *** The phases shown to the logger *)














(** *** The test at the top of every cycle *)

Lemma flight_back_top :
  respects top_step top_ok (eq Tested) (flight env false)
    (on_return (eq Elsewhere)).
Proof. intros w s <-. crunch. Qed.

Lemma flight_top :
  respects top_step top_ok (eq Elsewhere) (flight env true)
    (on_return (eq Elsewhere)).
Proof. intros w s <-. crunch. Qed.

Lemma signalReadyForBoarding_top :
  respects top_step top_ok (eq Elsewhere) (signalReadyForBoarding env)
    (on_return (eq Elsewhere)).
Proof. intros w s <-. crunch. Qed.

Lemma waitUntilReadyToFlight_top :
  respects top_step top_ok (eq Elsewhere) (waitUntilReadyToFlight env)
    (on_return (eq Elsewhere)).
Proof. intros w s <-. crunch. Qed.

Lemma dropPassengersAtTarget_top :
  respects top_step top_ok (eq Elsewhere) (dropPassengersAtTarget env)
    (on_return (eq Elsewhere)).
Proof. intros w s <-. crunch. Qed.

Lemma cycle_top :
  respects top_step top_ok (eq Tested) (cycle env) (on_return (eq Elsewhere)).
Proof.
  unfold cycle.
  eapply respects_then; [apply flight_back_top|intros _].
  eapply respects_then; [apply signalReadyForBoarding_top|intros _].
  eapply respects_then; [apply waitUntilReadyToFlight_top|intros _].
  eapply respects_then; [apply flight_top|intros _].
  apply dropPassengersAtTarget_top.
Qed.

Lemma life_cycle_top fuel w s :
  allowed top_step top_ok s (events (life_cycle env fuel w)) = true.
Proof.
  revert w s; induction fuel as [|fuel IH]; intros w s; [reflexivity|].
  rewrite life_cycle_S. destruct (finished (fSt w)); [reflexivity|].
  assert (E : events (let (t, o) := (cycle env;; life_cycle env fuel) w in
                      (EvLoad_finished false :: t, o)) =
              EvLoad_finished false ::
              events ((cycle env;; life_cycle env fuel) w))
    by (destruct ((cycle env;; life_cycle env fuel) w); reflexivity).
  rewrite E, events_bind.
  change (allowed top_step top_ok s (EvLoad_finished false :: ?l))
    with (allowed top_step top_ok Tested l).
  rewrite allowed_app.
  rewrite (proj1 (cycle_top w Tested eq_refl)).
  destruct (outcome (cycle env w)); cbn; auto.
Qed.

Lemma main_top fuel w s :
  allowed top_step top_ok s (events (main env fuel w)) = true.
Proof.
  rewrite main_eq. pose proof (life_cycle_top fuel w s) as Hl.
  unfold events in *.
  destruct (life_cycle env fuel w) as [t [[] w'|c w'|w'|w']];
    cbn [fst snd] in *; auto.
  rewrite allowed_app, Hl. unfold epilogue.
  destruct (_ =? -1); reflexivity.
Qed.

Lemma top_step_entering s x :
  top_step s x = Entering ->
  s = Tested /\ exists r, x = EvSemDown mutex (Some r).
Proof.
  destruct x as [sm [r|]| | |b| | | | | | | | | |]; cbn; try discriminate.
  - destruct sm; try discriminate. destruct s; try discriminate. eauto.
  - destruct sm; discriminate.
  - destruct b; discriminate.
Qed.

Lemma top_step_tested s x :
  top_step s x = Tested -> x = EvLoad_finished false.
Proof.
  destruct x as [sm [r|]| | |b| | | | | | | | | |]; cbn; try discriminate.
  - destruct sm; try discriminate. destruct s; discriminate.
  - destruct sm; discriminate.
  - destruct b; [discriminate|reflexivity].
Qed.

Lemma entering_after_test t :
  after top_step Elsewhere t = Entering ->
  exists t0 r, t = t0 ++ [EvLoad_finished false; EvSemDown mutex (Some r)].
Proof.
  induction t as [|x l _] using rev_ind.
  - cbn. discriminate.
  - rewrite after_app. cbn. intros H.
    apply top_step_entering in H as [Hl (r & ->)].
    induction l as [|y l' _] using rev_ind.
    + cbn in Hl. discriminate.
    + rewrite after_app in Hl. cbn in Hl.
      apply top_step_tested in Hl as ->.
      exists l', r. rewrite <- app_assoc. reflexivity.
Qed.

Lemma store_after_test t t1 t2 :
  allowed top_step top_ok Elsewhere t = true ->
  t = t1 ++ EvStore_pilotStat FLYING_BACK :: t2 ->
  exists t0 r, t1 = t0 ++ [EvLoad_finished false; EvSemDown mutex (Some r)].
Proof.
  intros Ha ->. rewrite allowed_app in Ha.
  apply andb_true_iff in Ha as [_ Ha]. cbn in Ha.
  apply andb_true_iff in Ha as [Ha _].
  apply entering_after_test.
  destruct (after top_step Elsewhere t1); try discriminate. reflexivity.
Qed.

(** ** The claims *)

(** C1, as amended: at the top of every cycle, before the outbound flight,
    the Pilot reads [finished] with a plain load, without any semaphore
    operation; in every run each such read happens while the Pilot does not
    hold the mutex.  Every cycle starts with that test: an iteration of the
    loop is the load followed, when the value read is false, by exactly one
    cycle and then the rest of the loop, and in every run the store of
    FLYING_BACK that opens the outbound flight comes right after the load of
    [finished], read as false, and the acquisition of the mutex.  If the
    value read is true the loop ends at once: the load is its only event
    (no signal raised, no part of a cycle started) and the shared record is
    left as it was. *)
Theorem isFinished_reads_without_mutex :
  (forall w,
     isFinished w =
       ([EvLoad_finished (finished (fSt w))], Returned (finished (fSt w)) w)) /\
  (forall fuel w,
     reads_outside_mutex false (events (main env fuel w)) = true) /\
  (forall fuel w,
     finished (fSt w) = true ->
     life_cycle env (S fuel) w = ([EvLoad_finished true], Returned tt w)) /\
  (forall fuel w,
     finished (fSt w) = false ->
     events (life_cycle env (S fuel) w) =
       EvLoad_finished false ::
       events ((cycle env;; life_cycle env fuel) w) /\
     outcome (life_cycle env (S fuel) w) =
       outcome ((cycle env;; life_cycle env fuel) w)) /\
  (forall fuel w t1 t2,
     events (main env fuel w) = t1 ++ EvStore_pilotStat FLYING_BACK :: t2 ->
     exists t0 r,
       t1 = t0 ++ [EvLoad_finished false; EvSemDown mutex (Some r)]).
Proof.
  split; [reflexivity|]. split; [|split; [|split]].
  - intros fuel w. apply (main_reads fuel w false eq_refl).
  - intros fuel w Hf. rewrite life_cycle_S, Hf. reflexivity.
  - intros fuel w Hf. rewrite life_cycle_S, Hf.
    destruct ((cycle env;; life_cycle env fuel) w); split; reflexivity.
  - intros fuel w t1 t2. apply store_after_test, main_top.
Qed.


(** C3: the Pilot never operates on a rendezvous semaphore and never
    sleeps while it holds the mutex, in a whole run of [main] and in each
    of its four operations called with the mutex free. *)
Theorem pilot_never_suspends_holding_mutex :
  (forall fuel w, mutex_free false (events (main env fuel w)) = true) /\
  (forall go w, mutex_free false (events (flight env go w)) = true) /\
  (forall w, mutex_free false (events (signalReadyForBoarding env w)) = true) /\
  (forall w, mutex_free false (events (waitUntilReadyToFlight env w)) = true) /\
  (forall w, mutex_free false (events (dropPassengersAtTarget env w)) = true).
Proof.
  repeat split; intros.
  - apply (main_mutex fuel w false eq_refl).
  - apply (flight_mutex go w false eq_refl).
  - apply (signalReadyForBoarding_mutex w false eq_refl).
  - apply (waitUntilReadyToFlight_mutex w false eq_refl).
  - apply (dropPassengersAtTarget_mutex w false eq_refl).
Qed.

(** C4: a call of [signalReadyForBoarding] in which the primitives succeed
    acquires the mutex, stores READY_FOR_BOARDING, stores [nFlight + 1]
    (for a flight number below [INT_MAX], the largest [int]), logs, releases
    the mutex and only then raises [readyForBoarding], once, and returns;
    the record logged has the new phase and the new flight number.  No call
    raises [readyForBoarding] more than once.  Over a completed cycle
    [nFlight] grows by exactly one (when no other process writes it). *)
Theorem signalReadyForBoarding_spec :
  (forall w r1,
     semDown_ret env (now w) = Some r1 -> r1 <> -1 ->
     semUp_ret env (S (now w)) <> -1 ->
     semUp_ret env (S (S (now w))) <> -1 ->
     let s0 := others env (now w) (fSt w) in
     INT_MIN <= nFlight s0 < INT_MAX ->
     let s1 := set_nFlight (nFlight s0 + 1)
                 (set_pilotStat READY_FOR_BOARDING s0) in
     signalReadyForBoarding env w =
       ([EvSemDown mutex (Some r1);
         EvStore_pilotStat READY_FOR_BOARDING;
         EvStore_nFlight (nFlight s0 + 1);
         EvSaveState s1;
         EvSaveStartBoarding s1;
         EvSemUp mutex (semUp_ret env (S (now w)));
         EvSemUp readyForBoarding (semUp_ret env (S (S (now w))))],
        Returned tt
          (mkWorld (others env (S (S (now w))) (others env (S (now w)) s1))
                   (S (S (S (now w)))))) /\
     pilotStat (st s1) = READY_FOR_BOARDING /\
     nFlight s1 = nFlight s0 + 1) /\
  (forall w,
     (count_raises readyForBoarding
        (events (signalReadyForBoarding env w)) <= 1)%nat) /\
  (forall w,
     (forall k s, nFlight (others env k s) = nFlight s) ->
     INT_MIN <= nFlight (fSt w) < INT_MAX ->
     returned (outcome (cycle env w)) = true ->
     nFlight (final (cycle env w)) = nFlight (fSt w) + 1).
Proof.
  split; [|split].
  - intros w r1 H1 N1 N2 N3 s0 Hb s1. split; [|split; reflexivity].
    apply signalReadyForBoarding_returns; assumption.
  - intros w. apply signalReadyForBoarding_raises.
  - apply cycle_nFlight.
Qed.

(** C5: a call of [waitUntilReadyToFlight] whose critical section succeeds
    acquires the mutex, stores WAITING_FOR_BOARDING, logs the state, whose
    phase is then WAITING_FOR_BOARDING, releases the mutex and then waits on
    [readyToFlight]: it returns when that wait returns, and stays suspended
    for ever, with no further event, when [readyToFlight] is never raised.
    [pilotStat] is the only field it stores: the other fields of the record
    logged are those found. *)
Theorem waitUntilReadyToFlight_spec w r1 :
  semDown_ret env (now w) = Some r1 -> r1 <> -1 ->
  semUp_ret env (S (now w)) <> -1 ->
  let s0 := others env (now w) (fSt w) in
  let s1 := set_pilotStat WAITING_FOR_BOARDING s0 in
  let w2 := mkWorld (others env (S (S (now w))) (others env (S (now w)) s1))
                    (S (S (S (now w)))) in
  let critical :=
    [EvSemDown mutex (Some r1);
     EvStore_pilotStat WAITING_FOR_BOARDING;
     EvSaveState s1;
     EvSemUp mutex (semUp_ret env (S (now w)))] in
  (forall r3, semDown_ret env (S (S (now w))) = Some r3 -> r3 <> -1 ->
     waitUntilReadyToFlight env w =
       (critical ++ [EvSemDown readyToFlight (Some r3)], Returned tt w2)) /\
  (semDown_ret env (S (S (now w))) = None ->
     waitUntilReadyToFlight env w =
       (critical ++ [EvSemDown readyToFlight None], Blocked w2)) /\
  s1 = mkFULL_STAT
         (mkSTAT WAITING_FOR_BOARDING (hostessStat (st s0))
                 (passengerStat (st s0)))
         (nFlight s0) (boardedCount s0) (remainingCount s0) (finished s0).
Proof.
  intros H1 N1 N2 s0 s1 w2 critical. subst s0 s1 w2 critical.
  split; [|split].
  - intros r3 H3 N3. unfold_op. drive. reflexivity.
  - intros H3. unfold_op. drive. reflexivity.
  - reflexivity.
Qed.

(** C6: a call of [dropPassengersAtTarget] in which the primitives succeed
    acquires the mutex, stores DROPING_PASSENGERS, logs the record, whose
    phase is then DROPING_PASSENGERS and whose other fields are those
    found, releases the mutex, raises [passengersWaitInFlight] once and
    then waits on
    [planeEmpty]; only when that wait has returned does it log the return
    flight under the mutex and return.  When [planeEmpty] is never raised
    the call stays suspended in that wait for ever. *)
Theorem dropPassengersAtTarget_spec w r1 :
  semDown_ret env (now w) = Some r1 -> r1 <> -1 ->
  semUp_ret env (S (now w)) <> -1 ->
  semUp_ret env (S (S (now w))) <> -1 ->
  let k := now w in
  let s0 := others env k (fSt w) in
  let s1 := set_pilotStat DROPING_PASSENGERS s0 in
  let s2 := others env (S (S k)) (others env (S k) s1) in
  let release :=
    [EvSemDown mutex (Some r1);
     EvStore_pilotStat DROPING_PASSENGERS;
     EvSaveFlightArrived s1;
     EvSaveState s1;
     EvSemUp mutex (semUp_ret env (S k));
     EvSemUp passengersWaitInFlight (semUp_ret env (S (S k)))] in
  (forall r4 r5,
     semDown_ret env (S (S (S k))) = Some r4 -> r4 <> -1 ->
     semDown_ret env (S (S (S (S k)))) = Some r5 -> r5 <> -1 ->
     semUp_ret env (S (S (S (S (S k))))) <> -1 ->
     let s3 := others env (S (S (S (S k)))) (others env (S (S (S k))) s2) in
     dropPassengersAtTarget env w =
       (release ++
        [EvSemDown planeEmpty (Some r4);
         EvSemDown mutex (Some r5);
         EvSaveFlightReturning s3;
         EvSemUp mutex (semUp_ret env (S (S (S (S (S k))))))],
        Returned tt
          (mkWorld (others env (S (S (S (S (S k))))) s3)
                   (S (S (S (S (S (S k))))))))) /\
  (semDown_ret env (S (S (S k))) = None ->
     dropPassengersAtTarget env w =
       (release ++ [EvSemDown planeEmpty None],
        Blocked (mkWorld (others env (S (S (S k))) s2) (S (S (S (S k))))))) /\
  (count_raises passengersWaitInFlight
     (events (dropPassengersAtTarget env w)) <= 1)%nat /\
  s1 = mkFULL_STAT
         (mkSTAT DROPING_PASSENGERS (hostessStat (st s0))
                 (passengerStat (st s0)))
         (nFlight s0) (boardedCount s0) (remainingCount s0) (finished s0).
Proof.
  intros H1 N1 N2 N3 k s0 s1 s2 release. subst k s0 s1 s2 release.
  split; [|split; [|split]]; [| | |reflexivity].
  - intros r4 r5 H4 N4 H5 N5 N6 s3. subst s3. unfold_op. drive. reflexivity.
  - intros H4. unfold_op. drive. reflexivity.
  - apply dropPassengersAtTarget_raises.
Qed.

(** C7: a call of [flight] in which the primitives succeed acquires the
    mutex, stores FLYING when [go] is true and FLYING_BACK when it is false,
    logs the record, whose phase is then the one stored and whose other
    fields are those found, releases the mutex, and only then calls
    [random()] and sleeps for the travel time computed from its value,
    always, before it returns.  With [MAXFLIGHT] a non-negative
    integer-valued double (at most 2^22), double rounding monotone and exact
    on the integers up to 2^53, and [random()] within 0 and [RAND_MAX], the
    microseconds slept lie between 100 and [MAXFLIGHT + 100]; they are 100
    when [random()] gives 0, [MAXFLIGHT + 100] when it gives [RAND_MAX], and
    do not decrease when the value of [random()] grows.  In exact
    arithmetic they are [MAXFLIGHT * random() / RAND_MAX + 100], rounded
    down. *)
Theorem flight_spec :
  (forall (go : bool) w r1,
     semDown_ret env (now w) = Some r1 -> r1 <> -1 ->
     semUp_ret env (S (now w)) <> -1 ->
     let s0 := others env (now w) (fSt w) in
     let s1 := set_pilotStat (if go then FLYING else FLYING_BACK) s0 in
     let x := random_ret env (S (S (now w))) in
     flight env go w =
       ([EvSemDown mutex (Some r1);
         EvStore_pilotStat (if go then FLYING else FLYING_BACK);
         EvSaveState s1;
         EvSemUp mutex (semUp_ret env (S (now w)));
         EvRandom x;
         EvUsleep (travel_time env x)],
        Returned tt
          (mkWorld (others env (S (S (S (now w)))) (others env (S (now w)) s1))
                   (S (S (S (S (now w))))))) /\
     s1 = mkFULL_STAT
            (mkSTAT (if go then FLYING else FLYING_BACK)
                    (hostessStat (st s0)) (passengerStat (st s0)))
            (nFlight s0) (boardedCount s0) (remainingCount s0) (finished s0)) /\
  (0 <= MAXFLIGHT env <= 2 ^ 22 ->
   (forall a b : Q, (a <= b)%Q -> (fl env a <= fl env b)%Q) ->
   (forall n : Z, - 2 ^ 53 <= n <= 2 ^ 53 ->
      (fl env (inject_Z n) == inject_Z n)%Q) ->
   (forall x, 0 <= x <= RAND_MAX ->
      100 <= travel_time env x <= MAXFLIGHT env + 100) /\
   travel_time env 0 = 100 /\
   travel_time env RAND_MAX = MAXFLIGHT env + 100 /\
   (forall x y, 0 <= x <= y -> y <= RAND_MAX ->
      travel_time env x <= travel_time env y)) /\
  (forall x,
     (forall q : Q, (fl env q == q)%Q) ->
     0 <= MAXFLIGHT env -> 0 <= x ->
     MAXFLIGHT env * x / RAND_MAX + 100 < 2 ^ 32 ->
     travel_time env x = MAXFLIGHT env * x / RAND_MAX + 100).
Proof.
  split; [|split].
  - intros go w r1 H1 N1 N2 s0 s1 x. split; [|reflexivity].
    apply flight_returns; assumption.
  - intros HM mono exact. repeat split.
    + apply travel_time_bounds; assumption.
    + apply travel_time_bounds; assumption.
    + apply travel_time_least; assumption.
    + apply travel_time_most; assumption.
    + intros x y Hxy Hy. apply travel_time_grows; assumption.
  - apply travel_time_ideal.
Qed.

(** C8: once [finished] has been read as true, nothing follows in the run
    but the unmapping of the shared region (and the report of its failure):
    no semaphore is operated on, no cycle operation runs, and [main]
    returns. *)
Theorem pilot_stops_when_finished fuel w t1 t2 :
  events (main env fuel w) = t1 ++ EvLoad_finished true :: t2 ->
  exists r w',
    t2 = epilogue r /\
    outcome (main env fuel w) =
      Returned (if r =? -1 then EXIT_FAILURE else EXIT_SUCCESS) w' /\
    existsb is_sem_op t2 = false.
Proof.
  rewrite main_eq. pose proof (life_cycle_end fuel w) as He.
  unfold events, outcome in *.
  destruct (life_cycle env fuel w) as [t [[] w'|c w'|w'|w']]; cbn [fst snd] in *;
    intros H; try (rewrite H, not_cycling in He; discriminate).
  destruct He as (t' & -> & Ht').
  rewrite <- app_assoc in H. cbn [app] in H.
  destruct (split_at_finish _ _ _ _ Ht' (epilogue_cycling _) (eq_sym H))
    as [E1 E2].
  subst t1 t2. eexists _, _. split; [reflexivity|]. split; [reflexivity|].
  unfold epilogue. destruct (_ =? -1); reflexivity.
Qed.

(** C9: whenever a semaphore primitive of the Pilot (on the mutex or on a
    rendezvous semaphore, down or up) returns -1, the only events that
    follow in the run are the error message and [exit(EXIT_FAILURE)]: the
    operation is not retried, no further step of the protocol is taken, and
    the process has exited with failure. *)
Theorem pilot_aborts_on_semaphore_error fuel w t1 e t2 :
  events (main env fuel w) = t1 ++ e :: t2 ->
  sem_error e = true ->
  abort_tail t2 = true /\
  status (outcome (main env fuel w)) = SExited EXIT_FAILURE.
Proof.
  intros Ht He.
  destruct (main_abort fuel w Running eq_refl) as [Ha Hp].
  eapply abort_split; eauto.
Qed.


End PilotFacts.

(** ** The claims on sample runs *)

(** C1 as stated fails: when the air lift is over at the first test of the
    loop, the run of [main] is the load of [finished] followed by the
    unmapping; the load is not made under the mutex, which the Pilot has
    never acquired. *)
Lemma isFinished_read_not_under_mutex :
  events (main calm 1 (mkWorld air_lift_over 0)) =
    [EvLoad_finished true; EvShmemDettach 0] /\
  reads_under_mutex false (events (main calm 1 (mkWorld air_lift_over 0))) = false.
Proof. split; reflexivity. Qed.

Lemma isFinished_reads_without_mutex_witness :
  finished (fSt (mkWorld air_lift_over 0)) = true /\
  life_cycle calm 1 (mkWorld air_lift_over 0) =
    ([EvLoad_finished true], Returned tt (mkWorld air_lift_over 0)) /\
  finished (fSt (mkWorld at_rest 0)) = false /\
  events (life_cycle calm 2 (mkWorld at_rest 0)) =
    EvLoad_finished false ::
    events ((cycle calm;; life_cycle calm 1) (mkWorld at_rest 0)) /\
  events (main calm 1 (mkWorld at_rest 0)) =
    [EvLoad_finished false; EvSemDown mutex (Some 0)] ++
    EvStore_pilotStat FLYING_BACK ::
    skipn 3 (events (main calm 1 (mkWorld at_rest 0))) /\
  exists t0 r,
    [EvLoad_finished false; EvSemDown mutex (Some 0)] =
      t0 ++ [EvLoad_finished false; EvSemDown mutex (Some r)].
Proof.
  destruct (isFinished_reads_without_mutex calm) as (_ & _ & H3 & H4 & H5).
  split; [reflexivity|]. split; [apply (H3 0%nat); reflexivity|].
  split; [reflexivity|].
  split; [apply (proj1 (H4 1%nat (mkWorld at_rest 0) eq_refl))|].
  split; [reflexivity|].
  apply (H5 1%nat (mkWorld at_rest 0) _
           (skipn 3 (events (main calm 1 (mkWorld at_rest 0))))).
  reflexivity.
Defined.


Lemma signalReadyForBoarding_spec_witness :
  (semDown_ret calm 0 = Some 0 /\ 0 <> -1 /\
   semUp_ret calm 1 <> -1 /\ semUp_ret calm 2 <> -1 /\
   INT_MIN <= nFlight (others calm 0 at_rest) < INT_MAX) /\
  events (signalReadyForBoarding calm (mkWorld at_rest 0)) =
    (let s1 :=
       mkFULL_STAT (mkSTAT READY_FOR_BOARDING 0 [0; 0; 0]) 1 0 0 false in
     [EvSemDown mutex (Some 0);
      EvStore_pilotStat READY_FOR_BOARDING;
      EvStore_nFlight 1;
      EvSaveState s1;
      EvSaveStartBoarding s1;
      EvSemUp mutex 0;
      EvSemUp readyForBoarding 0]) /\
  (forall k s, nFlight (others calm k s) = nFlight s) /\
  returned (outcome (cycle calm (mkWorld at_rest 0))) = true /\
  nFlight (final (cycle calm (mkWorld at_rest 0))) = 1.
Proof.
  assert (N : 0 <> -1) by lia.
  assert (B : INT_MIN <= 0 < INT_MAX) by (unfold INT_MIN, INT_MAX; lia).
  destruct (signalReadyForBoarding_spec calm) as (Hs & _ & Hn).
  split; [repeat split; simpl; unfold INT_MIN, INT_MAX; lia|]. split.
  - rewrite (proj1 (Hs (mkWorld at_rest 0) 0 eq_refl N N N B)). reflexivity.
  - split; [reflexivity|]. split; [reflexivity|].
    apply (Hn (mkWorld at_rest 0)); [reflexivity | exact B | reflexivity].
Defined.

Lemma waitUntilReadyToFlight_spec_witness :
  (semDown_ret calm 0 = Some 0 /\ 0 <> -1 /\ semUp_ret calm 1 <> -1 /\
   semDown_ret calm 2 = Some 0) /\
  pilotStat (st at_rest) = DROPING_PASSENGERS /\
  outcome (waitUntilReadyToFlight calm (mkWorld at_rest 0)) =
    Returned tt
      (mkWorld
         (mkFULL_STAT (mkSTAT WAITING_FOR_BOARDING 0 [0; 0; 0]) 0 0 0 false)
         3) /\
  (semDown_ret nobody_answers 0 = Some 0 /\ semUp_ret nobody_answers 1 <> -1 /\
   semDown_ret nobody_answers 2 = None) /\
  waitUntilReadyToFlight nobody_answers (mkWorld at_rest 0) =
    (let s1 :=
       mkFULL_STAT (mkSTAT WAITING_FOR_BOARDING 0 [0; 0; 0]) 0 0 0 false in
     ([EvSemDown mutex (Some 0);
       EvStore_pilotStat WAITING_FOR_BOARDING;
       EvSaveState s1;
       EvSemUp mutex 0;
       EvSemDown readyToFlight None],
      Blocked (mkWorld s1 3))).
Proof.
  assert (N : 0 <> -1) by lia.
  split; [repeat split; simpl; lia|]. split; [reflexivity|]. split.
  - rewrite (proj1 (waitUntilReadyToFlight_spec calm (mkWorld at_rest 0) 0
                      eq_refl N N) 0 eq_refl N).
    reflexivity.
  - split; [repeat split; simpl; lia|].
    rewrite (proj1 (proj2 (waitUntilReadyToFlight_spec nobody_answers
                             (mkWorld at_rest 0) 0 eq_refl N N)) eq_refl).
    reflexivity.
Defined.

Lemma dropPassengersAtTarget_spec_witness :
  (semDown_ret calm 0 = Some 0 /\ 0 <> -1 /\ semUp_ret calm 1 <> -1 /\
   semUp_ret calm 2 <> -1 /\ semDown_ret calm 3 = Some 0 /\
   semDown_ret calm 4 = Some 0 /\ semUp_ret calm 5 <> -1) /\
  pilotStat (st in_flight) = FLYING /\
  outcome (dropPassengersAtTarget calm (mkWorld in_flight 0)) =
    Returned tt
      (mkWorld
         (mkFULL_STAT (mkSTAT DROPING_PASSENGERS 2 [3; 3; 1]) 1 2 2 false)
         6) /\
  semDown_ret nobody_answers 3 = None /\
  outcome (dropPassengersAtTarget nobody_answers (mkWorld in_flight 0)) =
    Blocked
      (mkWorld
         (mkFULL_STAT (mkSTAT DROPING_PASSENGERS 2 [3; 3; 1]) 1 2 2 false)
         4).
Proof.
  assert (N : 0 <> -1) by lia.
  split; [repeat split; simpl; lia|]. split; [reflexivity|]. split.
  - rewrite (proj1 (dropPassengersAtTarget_spec calm (mkWorld in_flight 0) 0
                      eq_refl N N N) 0 0 eq_refl N eq_refl N N).
    reflexivity.
  - split; [reflexivity|].
    rewrite (proj1 (proj2 (dropPassengersAtTarget_spec nobody_answers
                             (mkWorld in_flight 0) 0 eq_refl N N N)) eq_refl).
    reflexivity.
Defined.

Lemma flight_spec_witness :
  (semDown_ret calm 0 = Some 0 /\ 0 <> -1 /\ semUp_ret calm 1 <> -1) /\
  pilotStat (st at_rest) = DROPING_PASSENGERS /\
  events (flight calm true (mkWorld at_rest 0)) =
    [EvSemDown mutex (Some 0);
     EvStore_pilotStat FLYING;
     EvSaveState (mkFULL_STAT (mkSTAT FLYING 0 [0; 0; 0]) 0 0 0 false);
     EvSemUp mutex 0;
     EvRandom 1073741824;
     EvUsleep 150] /\
  (0 <= MAXFLIGHT calm <= 2 ^ 22 /\ 0 <= 1073741824 <= RAND_MAX) /\
  100 <= travel_time calm 1073741824 <= MAXFLIGHT calm + 100 /\
  travel_time calm 0 = 100 /\
  travel_time calm RAND_MAX = 200 /\
  travel_time calm 1073741824 = 150.
Proof.
  assert (N : 0 <> -1) by lia.
  assert (HM : 0 <= MAXFLIGHT calm <= 2 ^ 22) by (simpl; lia).
  assert (Hx : 0 <= 1073741824 <= RAND_MAX) by (unfold RAND_MAX; lia).
  assert (mono : forall a b : Q, (a <= b)%Q -> (fl calm a <= fl calm b)%Q)
    by (intros a b H; exact H).
  assert (exact : forall n : Z, - 2 ^ 53 <= n <= 2 ^ 53 ->
                    (fl calm (inject_Z n) == inject_Z n)%Q)
    by (intros n _; apply Qeq_refl).
  assert (ideal : forall q : Q, (fl calm q == q)%Q)
    by (intros q; apply Qeq_refl).
  destruct (flight_spec calm) as (Hf & Hb & Hi).
  destruct (Hb HM mono exact) as (B & L & U & _).
  split; [repeat split; simpl; lia|]. split; [reflexivity|]. split.
  - rewrite (proj1 (Hf true (mkWorld at_rest 0) 0 eq_refl N N)). reflexivity.
  - split; [exact (conj HM Hx)|]. split; [exact (B _ Hx)|].
    split; [exact L|]. split; [exact U|].
    rewrite (Hi 1073741824 ideal); [reflexivity | simpl; lia | lia
                                   | vm_compute; reflexivity].
Defined.

Lemma pilot_stops_when_finished_witness :
  events (main calm 1 (mkWorld air_lift_over 0)) =
    [] ++ EvLoad_finished true :: [EvShmemDettach 0] /\
  exists r w',
    [EvShmemDettach 0] = epilogue r /\
    outcome (main calm 1 (mkWorld air_lift_over 0)) =
      Returned (if r =? -1 then EXIT_FAILURE else EXIT_SUCCESS) w' /\
    existsb is_sem_op [EvShmemDettach 0] = false.
Proof.
  split; [reflexivity|].
  apply (pilot_stops_when_finished calm 1 (mkWorld air_lift_over 0) []).
  reflexivity.
Defined.

Lemma pilot_aborts_on_semaphore_error_witness :
  events (main broken_release 1 (mkWorld at_rest 0)) =
    [EvLoad_finished false;
     EvSemDown mutex (Some 0);
     EvStore_pilotStat FLYING_BACK;
     EvSaveState (set_pilotStat FLYING_BACK at_rest)] ++
    EvSemUp mutex (-1) ::
    [EvPerror "error on the up operation for semaphore access (PT)";
     EvExit EXIT_FAILURE] /\
  sem_error (EvSemUp mutex (-1)) = true /\
  status (outcome (main broken_release 1 (mkWorld at_rest 0))) =
    SExited EXIT_FAILURE.
Proof.
  split; [reflexivity|]. split; [reflexivity|].
  apply (pilot_aborts_on_semaphore_error broken_release 1 (mkWorld at_rest 0)
           [EvLoad_finished false;
            EvSemDown mutex (Some 0);
            EvStore_pilotStat FLYING_BACK;
            EvSaveState (set_pilotStat FLYING_BACK at_rest)]
           (EvSemUp mutex (-1))
           [EvPerror "error on the up operation for semaphore access (PT)";
            EvExit EXIT_FAILURE]);
    reflexivity.
Defined.


(** The air lift is ended during the boarding of the first flight: the
    Pilot still completes that cycle, then leaves the loop and returns. *)
Example finished_during_boarding :
  let run := main stops_during_boarding 5 (mkWorld at_rest 0) in
  phase_writes (events run) = cycle_phases /\
  count_raises readyForBoarding (events run) = 1%nat /\
  nFlight (final run) = 1 /\
  status (outcome run) = SReturned.
Proof. repeat split. Qed.

(** Nobody answers: the first cycle stays suspended in the wait for the
    boarding, after three phases. *)
Example suspended_in_boarding :
  let run := main nobody_answers_boarding 5 (mkWorld at_rest 0) in
  phase_writes (events run) =
    [FLYING_BACK; READY_FOR_BOARDING; WAITING_FOR_BOARDING] /\
  status (outcome run) = SBlocked.
Proof. repeat split. Qed.

(** * More facts *)

Section PilotMore.

Variable env : Env.

(** *** The mutex is acquired and released in turn *)

Lemma flight_balanced go :
  respects holding balanced_ok (eq false) (flight env go) (on_return (eq false)).
Proof. intros w s <-. crunch. Qed.

Lemma signalReadyForBoarding_balanced :
  respects holding balanced_ok (eq false) (signalReadyForBoarding env)
    (on_return (eq false)).
Proof. intros w s <-. crunch. Qed.

Lemma waitUntilReadyToFlight_balanced :
  respects holding balanced_ok (eq false) (waitUntilReadyToFlight env)
    (on_return (eq false)).
Proof. intros w s <-. crunch. Qed.

Lemma dropPassengersAtTarget_balanced :
  respects holding balanced_ok (eq false) (dropPassengersAtTarget env)
    (on_return (eq false)).
Proof. intros w s <-. crunch. Qed.

Lemma cycle_balanced :
  respects holding balanced_ok (eq false) (cycle env) (on_return (eq false)).
Proof.
  unfold cycle.
  repeat (eapply respects_then; [|intros _]);
    auto using flight_balanced, signalReadyForBoarding_balanced,
      waitUntilReadyToFlight_balanced, dropPassengersAtTarget_balanced.
Qed.

Lemma main_balanced fuel :
  respects holding balanced_ok (eq false) (main env fuel) (on_return (eq false)).
Proof.
  eapply respects_main with (Q := on_return (eq false)); cbn; auto;
    try (intros; subst; reflexivity).
  - eapply respects_weaken; [apply cycle_balanced | auto |].
    intros [] ?; cbn; auto.
  - intros s r <-. split; auto. destruct (r =? -1); auto.
Qed.

(** X1: in every run of [main] the Pilot asks for the mutex only when it
    does not hold it and releases it only when it holds it; when [main]
    returns the mutex is free. *)
Theorem pilot_mutex_balanced fuel w :
  mutex_balanced false (events (main env fuel w)) = true /\
  match status (outcome (main env fuel w)) with
  | SReturned => after holding false (events (main env fuel w)) = false
  | _ => True
  end.
Proof.
  destruct (main_balanced fuel w false eq_refl) as [Ha Hq].
  split; [exact Ha|].
  destruct (status (outcome (main env fuel w))); cbn in *; auto.
Qed.

(** *** The record is written and logged under the mutex *)

Lemma flight_guarded go :
  respects holding guarded_ok (eq false) (flight env go) (on_return (eq false)).
Proof. intros w s <-. crunch. Qed.

Lemma signalReadyForBoarding_guarded :
  respects holding guarded_ok (eq false) (signalReadyForBoarding env)
    (on_return (eq false)).
Proof. intros w s <-. crunch. Qed.

Lemma waitUntilReadyToFlight_guarded :
  respects holding guarded_ok (eq false) (waitUntilReadyToFlight env)
    (on_return (eq false)).
Proof. intros w s <-. crunch. Qed.

Lemma dropPassengersAtTarget_guarded :
  respects holding guarded_ok (eq false) (dropPassengersAtTarget env)
    (on_return (eq false)).
Proof. intros w s <-. crunch. Qed.

Lemma cycle_guarded :
  respects holding guarded_ok (eq false) (cycle env) (on_return (eq false)).
Proof.
  unfold cycle.
  repeat (eapply respects_then; [|intros _]);
    auto using flight_guarded, signalReadyForBoarding_guarded,
      waitUntilReadyToFlight_guarded, dropPassengersAtTarget_guarded.
Qed.

Lemma main_guarded fuel :
  respects holding guarded_ok (eq false) (main env fuel) (on_return (eq false)).
Proof.
  eapply respects_main with (Q := on_return (eq false)); cbn; auto;
    try (intros; subst; reflexivity).
  - eapply respects_weaken; [apply cycle_guarded | auto |].
    intros [] ?; cbn; auto.
  - intros s r <-. split; auto. destruct (r =? -1); auto.
Qed.

(** X2: in every run of [main], every store to the shared record and every
    call of a logging function (which reads the record) is made while the
    Pilot holds the mutex. *)
Theorem pilot_accesses_under_mutex fuel w :
  accesses_under_mutex false (events (main env fuel w)) = true.
Proof. apply (main_guarded fuel w false eq_refl). Qed.

(** *** The log shows what was stored *)


Ltac crunch_log := run_op; repeat (cbn; progress use_replies); cbn;
  rewrite ?Z.eqb_refl; cbn; auto.

Lemma flight_written (go : bool) :
  respects written_step written_ok (eq unwritten) (flight env go)
    (on_return (eq unwritten)).
Proof. intros w s <-. destruct go; crunch_log. Qed.

Lemma signalReadyForBoarding_written :
  respects written_step written_ok (eq unwritten) (signalReadyForBoarding env)
    (on_return (eq unwritten)).
Proof. intros w s <-. crunch_log. Qed.

Lemma waitUntilReadyToFlight_written :
  respects written_step written_ok (eq unwritten) (waitUntilReadyToFlight env)
    (on_return (eq unwritten)).
Proof. intros w s <-. crunch_log. Qed.

Lemma dropPassengersAtTarget_written :
  respects written_step written_ok (eq unwritten) (dropPassengersAtTarget env)
    (on_return (eq unwritten)).
Proof. intros w s <-. crunch_log. Qed.

Lemma cycle_written :
  respects written_step written_ok (eq unwritten) (cycle env)
    (on_return (eq unwritten)).
Proof.
  unfold cycle.
  repeat (eapply respects_then; [|intros _]);
    auto using flight_written, signalReadyForBoarding_written,
      waitUntilReadyToFlight_written, dropPassengersAtTarget_written.
Qed.

Lemma main_written fuel :
  respects written_step written_ok (eq unwritten) (main env fuel)
    (on_return (eq unwritten)).
Proof.
  eapply respects_main with (Q := on_return (eq unwritten)); cbn; auto;
    try (intros; subst; reflexivity).
  - eapply respects_weaken; [apply cycle_written | auto |].
    intros [] ?; cbn; auto.
  - intros s r <-. split; auto. destruct (r =? -1); cbn; auto.
Qed.


(** X3: in every run of [main], [saveState], [saveStartBoarding] and
    [saveFlightArrived] are called only after the Pilot has stored its phase
    in the same critical section, and the record they are given shows that
    phase; [saveStartBoarding] is also given the flight number just
    stored. *)
Theorem pilot_log_shows_stores fuel w :
  log_shows_stores (events (main env fuel w)) = true.
Proof. apply (main_written fuel w unwritten eq_refl). Qed.

(** *** The order of the protocol *)

Lemma flight_proto (go : bool) n :
  respects proto_step proto_ok
    (eq (n, if go then 6%nat else 0%nat)) (flight env go)
    (on_return (eq (n, if go then 8%nat else 2%nat))).
Proof. intros w s <-. destruct go; crunch. Qed.

Lemma signalReadyForBoarding_proto n :
  respects proto_step proto_ok (eq (n, 2%nat)) (signalReadyForBoarding env)
    (on_return (eq (n, 4%nat))).
Proof. intros w s <-. crunch. Qed.

Lemma waitUntilReadyToFlight_proto n :
  respects proto_step proto_ok (eq (n, 4%nat)) (waitUntilReadyToFlight env)
    (on_return (eq (n, 6%nat))).
Proof. intros w s <-. crunch. Qed.

Lemma dropPassengersAtTarget_proto n :
  respects proto_step proto_ok (eq (n, 8%nat)) (dropPassengersAtTarget env)
    (on_return (eq (S n, 0%nat))).
Proof. intros w s <-. crunch. Qed.

Definition between_cycles (s : nat * nat) : Prop := snd s = 0%nat.

Lemma cycle_proto :
  respects proto_step proto_ok between_cycles (cycle env)
    (on_return between_cycles).
Proof.
  intros w [n p] H. unfold between_cycles in H. cbn in H. subst p. revert w.
  cut (respects proto_step proto_ok (eq (n, 0%nat)) (cycle env)
         (on_return (eq (S n, 0%nat)))).
  { intros Hc w. destruct (Hc w _ eq_refl) as [Ha Hq]. split; [exact Ha|].
    destruct (status (outcome (cycle env w))); cbn in *; auto.
    rewrite <- Hq. reflexivity. }
  unfold cycle.
  eapply respects_then; [apply (flight_proto false)|intros _].
  eapply respects_then; [apply signalReadyForBoarding_proto|intros _].
  eapply respects_then; [apply waitUntilReadyToFlight_proto|intros _].
  eapply respects_then; [apply (flight_proto true)|intros _].
  apply dropPassengersAtTarget_proto.
Qed.

Lemma main_proto fuel :
  respects proto_step proto_ok between_cycles (main env fuel)
    (on_return between_cycles).
Proof.
  eapply respects_main with (Q := on_return between_cycles);
    unfold between_cycles; cbn; auto.
  - intros [n p] b H. cbn in *. subst p. destruct b; reflexivity.
  - eapply respects_weaken; [apply cycle_proto | auto |].
    intros [] ?; cbn; auto.
  - intros s r H. split; auto. destruct (r =? -1); auto.
Qed.

Lemma after_proto_collect l t :
  after proto_collect l t = rev (proto_events t) ++ l.
Proof.
  revert l; induction t as [|e t IH]; intros l; [reflexivity|].
  cbn [after proto_events]. rewrite IH. unfold proto_collect.
  destruct (classify e); cbn; auto. rewrite <- app_assoc. reflexivity.
Qed.

Lemma flight_proto_collect (go : bool) l :
  respects proto_collect proto_any (eq l) (flight env go)
    (on_return
       (eq (PSleep :: PStore (if go then FLYING else FLYING_BACK) :: l))).
Proof. intros w s <-. destruct go; crunch. Qed.

Lemma signalReadyForBoarding_proto_collect l :
  respects proto_collect proto_any (eq l) (signalReadyForBoarding env)
    (on_return (eq (PUp readyForBoarding :: PStore READY_FOR_BOARDING :: l))).
Proof. intros w s <-. crunch. Qed.

Lemma waitUntilReadyToFlight_proto_collect l :
  respects proto_collect proto_any (eq l) (waitUntilReadyToFlight env)
    (on_return (eq (PDown readyToFlight :: PStore WAITING_FOR_BOARDING :: l))).
Proof. intros w s <-. crunch. Qed.

Lemma dropPassengersAtTarget_proto_collect l :
  respects proto_collect proto_any (eq l) (dropPassengersAtTarget env)
    (on_return
       (eq (PDown planeEmpty :: PUp passengersWaitInFlight ::
            PStore DROPING_PASSENGERS :: l))).
Proof. intros w s <-. crunch. Qed.

Lemma cycle_proto_collect l :
  respects proto_collect proto_any (eq l) (cycle env)
    (on_return (eq (rev protocol ++ l))).
Proof.
  unfold cycle.
  eapply respects_then; [apply (flight_proto_collect false)|intros _].
  eapply respects_then; [apply signalReadyForBoarding_proto_collect|intros _].
  eapply respects_then; [apply waitUntilReadyToFlight_proto_collect|intros _].
  eapply respects_then; [apply (flight_proto_collect true)|intros _].
  apply dropPassengersAtTarget_proto_collect.
Qed.

(** X4: in every run of [main] the stores to [pilotStat], the travel
    delays and the operations on the rendezvous semaphores come in the order
    of the loop body (store FLYING_BACK, sleep, store READY_FOR_BOARDING,
    raise [readyForBoarding], store WAITING_FOR_BOARDING, wait
    [readyToFlight], store FLYING, sleep, store DROPING_PASSENGERS, raise
    [passengersWaitInFlight], wait [planeEmpty]), cycle after cycle, and
    [finished] is read between cycles only; a cycle that completes takes
    each of these steps exactly once. *)
Theorem pilot_follows_protocol :
  (forall fuel w, follows_protocol (events (main env fuel w)) = true) /\
  (forall w,
     returned (outcome (cycle env w)) = true ->
     proto_events (events (cycle env w)) = protocol).
Proof.
  split.
  - intros fuel w. apply (main_proto fuel w (O, O) eq_refl).
  - intros w Hr.
    destruct (cycle_proto_collect [] w [] eq_refl) as [_ Hq].
    rewrite (status_returned _ Hr) in Hq. cbn [on_return] in Hq.
    rewrite after_proto_collect, !app_nil_r in Hq.
    apply (f_equal (@rev _)) in Hq. rewrite !rev_involutive in Hq. auto.
Qed.

(** *** The process exits only after a failed primitive *)

Lemma dead_after_failure t :
  allowed abort_step abort_ok Failed t = true ->
  after abort_step Failed t = Dead ->
  exists msg, t = [EvPerror msg; EvExit EXIT_FAILURE].
Proof.
  destruct t as [|x [|y [|z t]]]; cbn; try discriminate.
  - destruct x; try discriminate. destruct y; try discriminate. cbn.
    rewrite andb_true_r. intros Hc _. apply Z.eqb_eq in Hc. subst.
    eexists; reflexivity.
  - destruct x; try discriminate. destruct y; try discriminate. cbn.
    rewrite andb_false_r. discriminate.
Qed.

Lemma dead_split t :
  allowed abort_step abort_ok Running t = true ->
  after abort_step Running t = Dead ->
  exists t1 e msg,
    t = t1 ++ [e; EvPerror msg; EvExit EXIT_FAILURE] /\
    sem_error e = true /\ existsb sem_error t1 = false.
Proof.
  induction t as [|x t IH]; cbn; [discriminate|].
  intros Ha Hd. apply andb_true_iff in Ha as [_ Ha].
  destruct (sem_error x) eqn:Hx.
  - destruct (dead_after_failure t Ha Hd) as [msg ->].
    exists [], x, msg. auto.
  - destruct (IH Ha Hd) as (t1 & e & msg & -> & He & Hn).
    exists (x :: t1), e, msg. cbn. rewrite Hx, Hn. auto.
Qed.

Lemma never_running_again t s :
  s <> Running -> after abort_step s t <> Running.
Proof.
  revert s; induction t as [|x t IH]; intros s Hs; cbn; auto.
  apply IH. destruct s; cbn; try discriminate. congruence.
Qed.

Lemma running_no_exit t :
  allowed abort_step abort_ok Running t = true ->
  after abort_step Running t = Running ->
  existsb sem_error t = false.
Proof.
  induction t as [|x t IH]; cbn; auto.
  intros Ha Hd. apply andb_true_iff in Ha as [_ Ha].
  destruct (sem_error x) eqn:Hx; auto.
  exfalso. revert Hd. apply never_running_again. discriminate.
Qed.

(** X5: the process calls [exit] only with EXIT_FAILURE and only right
    after the report of a semaphore primitive that returned -1, the first
    one to fail; a run that does not exit has seen no primitive fail. *)
Theorem pilot_exits_only_on_failure fuel w :
  match status (outcome (main env fuel w)) with
  | SExited c =>
      c = EXIT_FAILURE /\
      exists t1 e msg,
        events (main env fuel w) =
          t1 ++ [e; EvPerror msg; EvExit EXIT_FAILURE] /\
        sem_error e = true /\ existsb sem_error t1 = false
  | _ => existsb sem_error (events (main env fuel w)) = false
  end.
Proof.
  destruct (main_abort env fuel w Running eq_refl) as [Ha Hp].
  destruct (status (outcome (main env fuel w))); cbn in Hp.
  - apply running_no_exit; assumption.
  - destruct Hp as [Hd ->]. split; [reflexivity|]. apply dead_split; assumption.
  - apply running_no_exit; assumption.
  - apply running_no_exit; assumption.
Qed.


(** *** The flight numbers *)

Lemma flights_app a b : flights (a ++ b) = flights a ++ flights b.
Proof.
  induction a as [|e a IH]; [reflexivity|].
  destruct e; cbn; rewrite ?IH; reflexivity.
Qed.

Lemma consecutive_app n a b :
  consecutive n (a ++ b) =
  consecutive n a && consecutive (n + Z.of_nat (List.length a)) b.
Proof.
  revert n; induction a as [|x a IH]; intros n.
  - cbn. rewrite Z.add_0_r. reflexivity.
  - cbn [app consecutive List.length]. rewrite IH, andb_assoc.
    replace (n + 1 + Z.of_nat (List.length a))
      with (n + Z.of_nat (S (List.length a))) by lia.
    reflexivity.
Qed.

Lemma final_bind {A B : Type} (m : M A) (k : A -> M B) w :
  final (bind m k w) =
  match outcome (m w) with
  | Returned a w1 => final (k a w1)
  | _ => final (m w)
  end.
Proof.
  unfold bind, final, outcome.
  destruct (m w) as [t1 [a w1|c w1|w1|w1]]; cbn; auto.
  destruct (k a w1); reflexivity.
Qed.

Lemma numbers_bind {A B : Type} (c1 c2 : nat) (m : M A) (k : A -> M B) :
  numbers_flights c1 m -> (forall a, numbers_flights c2 (k a)) ->
  numbers_flights (c1 + c2) (bind m k).
Proof.
  intros Hm Hk w Hlo Hhi. destruct (Hm w) as (C1 & N1 & L1); [lia..|].
  rewrite events_bind, final_bind.
  destruct (outcome (m w)) as [a w1|c w1|w1|w1] eqn:E;
    rewrite ?app_nil_r; try (repeat split; auto; lia).
  rewrite (final_returned _ _ _ _ E) in N1.
  destruct (Hk a w1) as (C2 & N2 & L2); [lia..|].
  rewrite flights_app, consecutive_app, C1, <- N1, C2, N2, N1, length_app.
  repeat split; lia.
Qed.

Section FlightNumbers.

Hypothesis others_keep : forall k s, nFlight (others env k s) = nFlight s.

Ltac numbered :=
  intros w Hlo Hhi; crunch;
  repeat (progress (rewrite ?others_keep; cbn));
  rewrite ?wrap_int_small by lia;
  rewrite ?Z.eqb_refl; repeat split; auto; lia.

Lemma flight_numbers go : numbers_flights 0 (flight env go).
Proof. numbered. Qed.

Lemma signalReadyForBoarding_numbers :
  numbers_flights 1 (signalReadyForBoarding env).
Proof. numbered. Qed.

Lemma waitUntilReadyToFlight_numbers :
  numbers_flights 0 (waitUntilReadyToFlight env).
Proof. numbered. Qed.

Lemma dropPassengersAtTarget_numbers :
  numbers_flights 0 (dropPassengersAtTarget env).
Proof. numbered. Qed.

Lemma cycle_numbers : numbers_flights 1 (cycle env).
Proof.
  unfold cycle.
  apply (numbers_bind 0 1); [apply flight_numbers|intros _].
  apply (numbers_bind 1 0); [apply signalReadyForBoarding_numbers|intros _].
  apply (numbers_bind 0 0); [apply waitUntilReadyToFlight_numbers|intros _].
  apply (numbers_bind 0 0); [apply flight_numbers|intros _].
  apply dropPassengersAtTarget_numbers.
Qed.

Lemma life_cycle_numbers fuel : numbers_flights fuel (life_cycle env fuel).
Proof.
  induction fuel as [|fuel IH]; intros w Hlo Hhi.
  - unfold final, events; cbn. repeat split; auto; lia.
  - assert (Hb : numbers_flights (1 + fuel) (cycle env;; life_cycle env fuel)).
    { apply numbers_bind; [apply cycle_numbers | intros _; exact IH]. }
    rewrite life_cycle_S. destruct (finished (fSt w)).
    + unfold final, events; cbn. repeat split; auto; lia.
    + specialize (Hb w Hlo Hhi). unfold events, final in *.
      destruct ((cycle env;; life_cycle env fuel) w) as [t o]. exact Hb.
Qed.

Lemma main_numbers fuel : numbers_flights (fuel + 0) (main env fuel).
Proof.
  unfold main. apply numbers_bind; [apply life_cycle_numbers|].
  intros _. numbered.
Qed.

End FlightNumbers.

(** X6: when no other process writes [nFlight] and the flight number stays
    within the range of an [int] (it starts at [INT_MIN] or above, and
    [INT_MAX] is not reached within the tests of the loop that the run is
    given), the values the Pilot stores into [nFlight] in a run of [main]
    are the successors, one by one, of the value found at the start, and the
    value left at the end is the last of them. *)
Theorem pilot_numbers_flights fuel w :
  (forall k s, nFlight (others env k s) = nFlight s) ->
  INT_MIN <= nFlight (fSt w) ->
  nFlight (fSt w) + Z.of_nat fuel <= INT_MAX ->
  consecutive (nFlight (fSt w)) (flights (events (main env fuel w))) = true /\
  nFlight (final (main env fuel w)) =
    nFlight (fSt w) +
    Z.of_nat (List.length (flights (events (main env fuel w)))).
Proof.
  intros Ho Hlo Hhi.
  destruct (main_numbers Ho fuel w) as (C & N & _); [lia..|]. auto.
Qed.

(** *** The life cycle comes to an end *)

Ltac uncoop Hd Hu :=
  match goal with
  | H : semDown_ret env ?k = None |- _ =>
      destruct (Hd k) as (? & ? & ?); congruence
  | H : semDown_ret env ?k = Some ?r, E : (?r =? -1) = true |- _ =>
      apply Z.eqb_eq in E; destruct (Hd k) as (? & ? & ?); congruence
  | E : (semUp_ret env ?k =? -1) = true |- _ =>
      apply Z.eqb_eq in E; destruct (Hu k E)
  end.

Ltac ran := eexists; split; [reflexivity|]; cbn; try split; intros; auto; lia.

Lemma flight_runs go w :
  cooperative env ->
  exists w1, outcome (flight env go w) = Returned tt w1 /\
             now w1 = (now w + 4)%nat.
Proof. intros [Hd Hu]. crunch; try uncoop Hd Hu; ran. Qed.

Lemma signalReadyForBoarding_runs w :
  cooperative env ->
  exists w1, outcome (signalReadyForBoarding env w) = Returned tt w1 /\
             now w1 = (now w + 3)%nat.
Proof. intros [Hd Hu]. crunch; try uncoop Hd Hu; ran. Qed.

Lemma waitUntilReadyToFlight_runs w :
  cooperative env ->
  exists w1, outcome (waitUntilReadyToFlight env w) = Returned tt w1 /\
             now w1 = (now w + 3)%nat.
Proof. intros [Hd Hu]. crunch; try uncoop Hd Hu; ran. Qed.

Lemma dropPassengersAtTarget_runs w :
  cooperative env ->
  exists w1, outcome (dropPassengersAtTarget env w) = Returned tt w1 /\
             now w1 = (now w + 6)%nat /\
             exists s, fSt w1 = others env (now w + 5) s.
Proof.
  intros [Hd Hu]. crunch; try uncoop Hd Hu.
  eexists; split; [reflexivity|]. cbn. split; [lia|].
  replace (now w + 5)%nat with (S (S (S (S (S (now w)))))) by lia.
  eexists; reflexivity.
Qed.

Lemma cycle_runs w :
  cooperative env ->
  exists w1, outcome (cycle env w) = Returned tt w1 /\
             now w1 = (now w + 20)%nat /\
             exists s, fSt w1 = others env (now w + 19) s.
Proof.
  intros Hc. unfold cycle.
  destruct (flight_runs false w Hc) as (w1 & E1 & N1).
  destruct (signalReadyForBoarding_runs w1 Hc) as (w2 & E2 & N2).
  destruct (waitUntilReadyToFlight_runs w2 Hc) as (w3 & E3 & N3).
  destruct (flight_runs true w3 Hc) as (w4 & E4 & N4).
  destruct (dropPassengersAtTarget_runs w4 Hc) as (w5 & E5 & N5 & s & Hs).
  rewrite outcome_bind, E1, outcome_bind, E2, outcome_bind, E3,
    outcome_bind, E4.
  exists w5. split; [exact E5|]. split; [lia|].
  exists s. rewrite Hs. f_equal. lia.
Qed.

Lemma life_cycle_leaves w fuel :
  finished (fSt w) = true ->
  outcome (life_cycle env (S fuel) w) = Returned tt w.
Proof. intros H. rewrite life_cycle_S, H. reflexivity. Qed.

Lemma life_cycle_goes_on w w1 fuel :
  finished (fSt w) = false ->
  outcome (cycle env w) = Returned tt w1 ->
  outcome (life_cycle env (S fuel) w) = outcome (life_cycle env fuel w1).
Proof.
  intros H E. rewrite life_cycle_S, H.
  pose proof (outcome_bind (cycle env) (fun _ => life_cycle env fuel) w) as Ho.
  rewrite E in Ho. unfold outcome in *.
  destruct ((cycle env;; life_cycle env fuel) w). exact Ho.
Qed.

Lemma life_cycle_ends (K : nat) :
  cooperative env ->
  (forall k s, (K <= k)%nat -> finished (others env k s) = true) ->
  forall n w, (K <= now w + 19 + 20 * n)%nat ->
  returned (outcome (life_cycle env (n + 2) w)) = true.
Proof.
  intros Hc HK. induction n as [|n IH]; intros w Hn.
  - cbn [Nat.add]. destruct (finished (fSt w)) eqn:Hf.
    + rewrite life_cycle_leaves by assumption. reflexivity.
    + destruct (cycle_runs w Hc) as (w1 & E & N & s & Hs).
      rewrite (life_cycle_goes_on w w1) by assumption.
      rewrite life_cycle_leaves; [reflexivity|].
      rewrite Hs. apply HK. lia.
  - cbn [Nat.add]. destruct (finished (fSt w)) eqn:Hf.
    + rewrite life_cycle_leaves by assumption. reflexivity.
    + destruct (cycle_runs w Hc) as (w1 & E & N & s & Hs).
      rewrite (life_cycle_goes_on w w1) by assumption.
      apply IH. lia.
Qed.

(** X7: in a cooperative environment in which [finished] is set in the
    shared record from the clock value [K] on, [main] returns, after at
    most [K + 2] tests of the loop, without any primitive having failed. *)
Theorem pilot_terminates (K : nat) w :
  cooperative env ->
  (forall k s, (K <= k)%nat -> finished (others env k s) = true) ->
  returned (outcome (main env (K + 2) w)) = true /\
  existsb sem_error (events (main env (K + 2) w)) = false.
Proof.
  intros Hc HK.
  assert (Hr : returned (outcome (main env (K + 2) w)) = true).
  { assert (Hl : returned (outcome (life_cycle env (K + 2) w)) = true)
      by (apply (life_cycle_ends K Hc HK); lia).
    rewrite main_eq. unfold outcome in *.
    destruct (life_cycle env (K + 2) w) as [t [a w'|c w'|w'|w']];
      cbn in *; try discriminate. reflexivity. }
  split; [exact Hr|].
  destruct (main_abort env (K + 2) w Running eq_refl) as [Ha Hp].
  rewrite (status_returned _ Hr) in Hp. cbn in Hp.
  apply running_no_exit; assumption.
Qed.


(** *** The exit status *)

Lemma main_returned fuel w v w' :
  outcome (main env fuel w) = Returned v w' ->
  exists t r,
    events (main env fuel w) = t ++ EvLoad_finished true :: epilogue r /\
    v = (if r =? -1 then EXIT_FAILURE else EXIT_SUCCESS).
Proof.
  rewrite main_eq. pose proof (life_cycle_end env fuel w) as He.
  unfold events, outcome in *.
  destruct (life_cycle env fuel w) as [t [[] w1|c w1|w1|w1]]; cbn [fst snd] in *;
    try discriminate.
  destruct He as (t' & -> & _). intros H. injection H as <- _.
  exists t', (shmemDettach_ret env (now w1)).
  rewrite <- app_assoc. split; reflexivity.
Qed.

Lemma main_after_finish fuel w t1 t2 :
  events (main env fuel w) = t1 ++ EvLoad_finished true :: t2 ->
  exists r w',
    t2 = epilogue r /\
    outcome (main env fuel w) =
      Returned (if r =? -1 then EXIT_FAILURE else EXIT_SUCCESS) w'.
Proof.
  rewrite main_eq. pose proof (life_cycle_end env fuel w) as He.
  unfold events, outcome in *.
  destruct (life_cycle env fuel w) as [t [[] w'|c w'|w'|w']]; cbn [fst snd] in *;
    intros H; try (rewrite H, not_cycling in He; discriminate).
  destruct He as (t' & -> & Ht').
  rewrite <- app_assoc in H. cbn [app] in H.
  destruct (split_at_finish _ _ _ _ Ht' (epilogue_cycling _) (eq_sym H))
    as [E1 E2].
  subst t1 t2. eexists _, _. split; reflexivity.
Qed.

Lemma main_exited fuel w c w' :
  outcome (main env fuel w) = Exited c w' -> c = EXIT_FAILURE.
Proof.
  intros E. destruct (main_abort env fuel w Running eq_refl) as [_ Hp].
  rewrite E in Hp. apply Hp.
Qed.

(** X8: when the log file name fits [nFic] (at most 50 characters, a
    precondition of the [strcpy] at the start), the whole of [main] ends
    with EXIT_SUCCESS or EXIT_FAILURE, and with EXIT_SUCCESS exactly when
    the start succeeded and the life cycle ended with [finished] read as
    true followed by an unmapping that did not fail; when the start is
    refused the Pilot does nothing to the semaphores or the shared
    record. *)
Theorem pilot_exit_status b fuel w :
  name_fits b ->
  exists tb t e,
    pilot_process b env fuel w = Some (tb, t, e) /\
    (forall c, e = Ended c -> c = EXIT_SUCCESS \/ c = EXIT_FAILURE) /\
    (e = Ended EXIT_SUCCESS <->
     (exists n sg sh, snd (prologue b) = Attached n sg sh) /\
     exists t' r,
       t = t' ++ [EvLoad_finished true; EvShmemDettach r] /\ r <> -1) /\
    ((forall n sg sh, snd (prologue b) <> Attached n sg sh) -> t = []).
Proof.
  intros Hfit. unfold pilot_process.
  destruct (prologue b) as [tb' [c| |n sg sh]] eqn:Ep.
  - exists tb', [], (Ended c). split; [reflexivity|].
    assert (Hc : c = EXIT_FAILURE).
    { revert Ep. unfold prologue.
      repeat match goal with
             | |- context [if ?c then _ else _] => destruct c
             | |- context [let (_, _) := ?p in _] => destruct p
             end; intros H; inversion H; reflexivity. }
    subst c. split; [intros c H; injection H as <-; auto|]. split; [|auto].
    split; [discriminate|]. intros [(n & sg & sh & H) _]. discriminate.
  - exfalso. revert Ep. unfold prologue.
    destruct (Z.eqb_spec (argc b) 4) as [E4|]; cbn [negb];
      [|discriminate].
    destruct (Nat.ltb_spec 50 (String.length (arg b 1))) as [Hl|Hl].
    + specialize (Hfit E4). lia.
    + repeat match goal with
             | |- context [if ?c then _ else _] => destruct c
             | |- context [let (_, _) := ?p in _] => destruct p
             end; discriminate.
  - pose proof (main_returned fuel w) as Hr.
    pose proof (main_exited fuel w) as Hx.
    pose proof (main_after_finish fuel w) as Hf.
    unfold events, outcome in *.
    destruct (main env fuel w) as [tm [v w'|c w'|w'|w']]; cbn [fst snd] in *.
    + exists tb', tm, (Ended v). split; [reflexivity|].
      destruct (Hr v w' eq_refl) as (t' & r & -> & ->).
      split; [intros c H; injection H as <-; destruct (r =? -1); auto|].
      split; [|intros H; exfalso; eapply H; reflexivity].
      split.
      * intros H. split; [eauto|]. exists t', r. unfold epilogue.
        destruct (Z.eqb_spec r (-1)); [discriminate|]. auto.
      * intros [_ (t'' & r' & E & Hn)].
        destruct (Hf t'' [EvShmemDettach r'] E) as (r'' & w'' & E1 & E2).
        injection E2 as -> _. unfold epilogue in E1.
        injection E1 as -> E1.
        destruct (Z.eqb_spec r'' (-1)); [contradiction|reflexivity].
    + exists tb', tm, (Ended c). split; [reflexivity|].
      rewrite (Hx c w' eq_refl).
      split; [intros c' H; injection H as <-; auto|].
      split; [|intros H; exfalso; eapply H; reflexivity].
      split; [discriminate|].
      intros [_ (t'' & r' & E & Hn)].
      destruct (Hf t'' [EvShmemDettach r'] E) as (r'' & w'' & _ & E2).
      discriminate.
    + exists tb', tm, Suspended. split; [reflexivity|].
      split; [discriminate|].
      split; [|intros H; exfalso; eapply H; reflexivity].
      split; [discriminate|].
      intros [_ (t'' & r' & E & Hn)].
      destruct (Hf t'' [EvShmemDettach r'] E) as (r'' & w'' & _ & E2).
      discriminate.
    + exists tb', tm, Still_cycling. split; [reflexivity|].
      split; [discriminate|].
      split; [|intros H; exfalso; eapply H; reflexivity].
      split; [discriminate|].
      intros [_ (t'' & r' & E & Hn)].
      destruct (Hf t'' [EvShmemDettach r'] E) as (r'' & w'' & _ & E2).
      discriminate.
Qed.

End PilotMore.

(** ** The start of the process *)

Ltac start_cases :=
  unfold prologue;
  repeat match goal with
         | |- context [let (_, _) := ?p in _] => destruct p eqn:?
         | |- context [if ?c then _ else _] => destruct c eqn:?
         end.

(** X9: the start of [main] stops at the first connection that returns
    -1, after reporting it; whenever it refuses to start it returns
    EXIT_FAILURE, the last thing it did was to write a message to stderr,
    and the random generator has not been seeded; with a number of
    arguments other than 4 it attempts no connection at all. *)
Theorem prologue_refuses b :
  stops_at_failure (fst (prologue b)) = true /\
  (forall t c,
     prologue b = (t, Refused c) ->
     c = EXIT_FAILURE /\
     (exists t' e, t = t' ++ [e] /\ is_report e = true) /\
     existsb (fun e => match e with EvSrandom _ => true | _ => false end) t
       = false) /\
  (argc b <> 4 ->
   existsb touches_resources (fst (prologue b)) = false /\
   snd (prologue b) = Refused EXIT_FAILURE).
Proof.
  split; [|split].
  - start_cases; cbn;
      repeat match goal with
             | H : (?r =? -1) = _ |- context [?r =? -1] => rewrite H
             end; reflexivity.
  - intros t c. start_cases; intros H; inversion H; subst; clear H;
      (split; [reflexivity|]); (split; [|reflexivity]);
      match goal with
      | |- exists t' e, ?t = _ /\ _ =>
          exists (removelast t), (last t (EvSrandom 0));
          split; [apply app_removelast_last; discriminate | reflexivity]
      end.
  - intros Hn. unfold prologue.
    destruct (Z.eqb_spec (argc b) 4); [contradiction|]. cbn. auto.
Qed.

(** ** More sample runs *)

Lemma pilot_follows_protocol_witness :
  returned (outcome (cycle calm (mkWorld at_rest 0))) = true /\
  proto_events (events (cycle calm (mkWorld at_rest 0))) = protocol.
Proof.
  split; [reflexivity|].
  apply (proj2 (pilot_follows_protocol calm)). reflexivity.
Defined.

Lemma pilot_numbers_flights_witness :
  (forall k s, nFlight (others calm k s) = nFlight s) /\
  INT_MIN <= nFlight at_rest /\
  nFlight at_rest + Z.of_nat 2 <= INT_MAX /\
  flights (events (main calm 2 (mkWorld at_rest 0))) = [1; 2] /\
  nFlight (final (main calm 2 (mkWorld at_rest 0))) =
    nFlight at_rest +
    Z.of_nat (List.length (flights (events (main calm 2 (mkWorld at_rest 0))))).
Proof.
  assert (Hlo : INT_MIN <= nFlight at_rest) by (vm_compute; discriminate).
  assert (Hhi : nFlight at_rest + Z.of_nat 2 <= INT_MAX)
    by (vm_compute; discriminate).
  split; [reflexivity|]. split; [exact Hlo|]. split; [exact Hhi|].
  split; [reflexivity|].
  apply (pilot_numbers_flights calm 2 (mkWorld at_rest 0));
    [reflexivity | exact Hlo | exact Hhi].
Defined.

Lemma pilot_terminates_witness :
  cooperative ends_from_boarding /\
  (forall k s, (9 <= k)%nat -> finished (others ends_from_boarding k s) = true) /\
  returned (outcome (main ends_from_boarding 11 (mkWorld at_rest 0))) = true.
Proof.
  assert (Hc : cooperative ends_from_boarding).
  { split; intros k; [exists 0; split; [reflexivity|lia] | simpl; lia]. }
  assert (HK : forall k s, (9 <= k)%nat ->
                 finished (others ends_from_boarding k s) = true).
  { intros k s H. cbv [ends_from_boarding others].
    destruct (Nat.leb_spec 9 k); [reflexivity|lia]. }
  split; [exact Hc|]. split; [exact HK|].
  apply (pilot_terminates ends_from_boarding 9 (mkWorld at_rest 0) Hc HK).
Defined.

Lemma pilot_exit_status_witness :
  name_fits good_start /\
  pilot_process good_start calm 1 (mkWorld air_lift_over 0) =
    Some (fst (prologue good_start),
          [EvLoad_finished true; EvShmemDettach 0],
          Ended EXIT_SUCCESS) /\
  exists tb t e,
    pilot_process good_start calm 1 (mkWorld air_lift_over 0) =
      Some (tb, t, e) /\
    (forall c, e = Ended c -> c = EXIT_SUCCESS \/ c = EXIT_FAILURE) /\
    (e = Ended EXIT_SUCCESS <->
     (exists n sg sh, snd (prologue good_start) = Attached n sg sh) /\
     exists t' r,
       t = t' ++ [EvLoad_finished true; EvShmemDettach r] /\ r <> -1) /\
    ((forall n sg sh, snd (prologue good_start) <> Attached n sg sh) ->
     t = []).
Proof.
  assert (Hfit : name_fits good_start) by (intros _; vm_compute; lia).
  split; [exact Hfit|]. split; [reflexivity|].
  apply (pilot_exit_status calm good_start 1 (mkWorld air_lift_over 0) Hfit).
Defined.

Lemma prologue_refuses_witness :
  prologue bad_key_start =
    ([EvFreopen "error_PT" "w"; EvStrcpy_nFic "log"; EvStrtol "46x0" 0;
      EvFprintf ("Error on the access key communication!" ++ newline)],
     Refused EXIT_FAILURE) /\
  argc no_arguments_start <> 4 /\
  snd (prologue no_arguments_start) = Refused EXIT_FAILURE /\
  prologue no_region_start =
    (fst (prologue no_region_start), Refused EXIT_FAILURE) /\
  exists t' e,
    fst (prologue no_region_start) = t' ++ [e] /\ is_report e = true.
Proof.
  assert (N : argc no_arguments_start <> 4) by (vm_compute; lia).
  split; [reflexivity|]. split; [exact N|]. split.
  - apply (proj2 (proj2 (prologue_refuses no_arguments_start)) N).
  - assert (H : prologue no_region_start =
                  (fst (prologue no_region_start), Refused EXIT_FAILURE))
      by reflexivity.
    split; [exact H|].
    apply (proj1 (proj2 (proj1 (proj2 (prologue_refuses no_region_start))
                           _ _ H))).
Defined.
